(** * El Torito boot image extraction (eltorito.py)

    A shallow embedding of [src/eltorito.py] and the properties of its
    [extract] function: the sector reader [_get_sector], the walk over the
    boot-record volume descriptor, the boot catalog's validation and initial
    entries, the media classification with its hard-disk side read, and the
    final read of the embedded image.

    Python values are modelled as follows.
    - [bytes] is [list byte]; an [int] is [Z]; a [str] is [string].
    - The input stream is a seekable file: its content and a position.
    - An exception is a value of [exn]; a computation over the stream and
      the handler returns [exn + A] together with the state it leaves.
    - [handler.set] and [handler.get] are method calls on whatever object
      the caller passes, so [extract] is written over an interface
      ([Handler]) of which the source's [DetailHandler] is the instance. *)

From Stdlib Require Import ZArith String Ascii DecimalString DecimalZ Lia.
From Stdlib.Strings Require Import Byte.
From stdpp Require Import base tactics option list strings gmap.

Local Open Scope Z_scope.

(** ** Constants (lines 16-17) *)

Definition V_SECTOR_SIZE : Z := 512.
Definition SECTOR_SIZE : Z := 2048.

(** ** Python values and exceptions *)

(** The objects handed to [DetailHandler.set]: decoded strings and
    unpacked integers. *)
Inductive value : Type :=
  | VStr (s : string)
  | VInt (n : Z).

#[export] Instance value_eq_dec : EqDecision value.
Proof. solve_decision. Defined.

(** [ElToritoError] is the source's only exception class (lines 35-38); the
    others are the built-in exceptions that the library calls made by
    [extract] can raise. *)
Inductive exn : Type :=
  | ElToritoError (message : string)
  | UnicodeDecodeError
  | AttributeError (name : string)
  | ValueError
  | StructError
  | OSError.

#[export] Instance exn_eq_dec : EqDecision exn.
Proof. solve_decision. Defined.

(** The five failures that the specification names, as the messages with
    which the source raises [ElToritoError]. *)
Definition InvalidArgumentError : exn :=
  ElToritoError "invalid arguments for extraction, all inputs must be set".
Definition TruncatedImageError : exn := ElToritoError "invalid sector read".
Definition NotBootableError : exn :=
  ElToritoError "this is not a bootable cd-image".
Definition InvalidValidationEntryError : exn :=
  ElToritoError "invalid validation entry".
Definition NotBootableEntryError : exn :=
  ElToritoError "boot indicator is not 0x88, not bootable".

Definition in_taxonomy (e : exn) : Prop :=
  e = TruncatedImageError ∨ e = NotBootableError ∨
  e = InvalidValidationEntryError ∨ e = NotBootableEntryError ∨
  e = InvalidArgumentError.

(** [str(v)]: a string is itself, an integer is printed in decimal. *)
Definition py_str (v : value) : string :=
  match v with
  | VStr s => s
  | VInt n => NilZero.string_of_int (Z.to_int n)
  end.

(** [int(s)] on a decimal literal with an optional minus sign, the only
    strings that [str] of an integer produces; anything else is a
    [ValueError]. *)
Definition py_int (s : string) : exn + Z :=
  match NilZero.int_of_string s with
  | Some d => inr (Z.of_int d)
  | None => inl ValueError
  end.

#[export] Instance byte_eq_dec : EqDecision byte := Byte.byte_eq_dec.

(** [bytes.decode("ascii")]: fails on any byte above 127. *)
Definition byte_to_Z (b : byte) : Z := Z.of_N (Byte.to_N b).

Definition is_ascii (bs : list byte) : bool :=
  forallb (λ b, byte_to_Z b <? 128) bs.

Definition decode_ascii (bs : list byte) : exn + string :=
  if is_ascii bs then inr (string_of_list_byte bs) else inl UnicodeDecodeError.

(** [str.strip()]: removes leading and trailing whitespace, which for the
    characters an ASCII decode can produce are the codes 9-13, 28-31 and
    32. *)
Definition is_space (c : ascii) : bool :=
  let n := Z.of_N (N_of_ascii c) in
  ((9 <=? n) && (n <=? 13)) || ((28 <=? n) && (n <=? 32)).

Fixpoint lstrip (s : string) : string :=
  match s with
  | EmptyString => EmptyString
  | String c rest => if is_space c then lstrip rest else s
  end.

Definition rstrip (s : string) : string := String.rev (lstrip (String.rev s)).

Definition strip (s : string) : string := rstrip (lstrip s).

(** The comprehension of line 63: keeps the characters ['A'..'Z'] and the
    space. *)
Definition is_upper_or_space (c : ascii) : bool :=
  let n := Z.of_N (N_of_ascii c) in
  ((65 <=? n) && (n <=? 90)) || (n =? 32).

Fixpoint keep_upper_and_space (s : string) : string :=
  match s with
  | EmptyString => EmptyString
  | String c rest =>
      if is_upper_or_space c then String c (keep_upper_and_space rest)
      else keep_upper_and_space rest
  end.

(** ** [struct.unpack] with the four little-endian formats of the source *)

(** [buf[a:b]] for constant bounds [0 <= a <= b]. *)
Definition slice (a b : nat) (buf : list byte) : list byte :=
  take (b - a)%nat (drop a buf).

(** An unsigned little-endian integer ([B], [H] and [L] with [<]). *)
Definition le_uint (bs : list byte) : Z :=
  foldr (λ b acc, byte_to_Z b + 256 * acc) 0 bs.

(** [struct.unpack] raises [struct.error] unless the buffer has the size of
    the format. *)
Definition unpack_B5sB32s32sL (buf : list byte)
  : exn + (Z * list byte * Z * list byte * list byte * Z) :=
  if decide (length buf = 75%nat) then
    inr (le_uint (slice 0 1 buf), slice 1 6 buf, le_uint (slice 6 7 buf),
         slice 7 39 buf, slice 39 71 buf, le_uint (slice 71 75 buf))
  else inl StructError.

Definition unpack_BBH24sHBB (buf : list byte)
  : exn + (Z * Z * Z * list byte * Z * Z * Z) :=
  if decide (length buf = 32%nat) then
    inr (le_uint (slice 0 1 buf), le_uint (slice 1 2 buf),
         le_uint (slice 2 4 buf), slice 4 28 buf, le_uint (slice 28 30 buf),
         le_uint (slice 30 31 buf), le_uint (slice 31 32 buf))
  else inl StructError.

Definition unpack_BBHBBHLB (buf : list byte)
  : exn + (Z * Z * Z * Z * Z * Z * Z * Z) :=
  if decide (length buf = 13%nat) then
    inr (le_uint (slice 0 1 buf), le_uint (slice 1 2 buf),
         le_uint (slice 2 4 buf), le_uint (slice 4 5 buf),
         le_uint (slice 5 6 buf), le_uint (slice 6 8 buf),
         le_uint (slice 8 12 buf), le_uint (slice 12 13 buf))
  else inl StructError.

Definition unpack_8sLL (buf : list byte) : exn + (list byte * Z * Z) :=
  if decide (length buf = 16%nat) then
    inr (slice 0 8 buf, le_uint (slice 8 12 buf), le_uint (slice 12 16 buf))
  else inl StructError.

(** ** The input stream *)

(** A seekable binary file: what [open(path, "rb")] or [io.BytesIO]
    gives. The model covers offsets and sizes from 0 to below 2^63, which
    is where [extract] stays: its sector numbers and counts are unsigned
    fields of at most four bytes. A device error and a read for which
    there is not enough memory are not modelled. *)
Record stream : Type := Stream { content : list byte; position : Z }.

(** [handle.seek(offset, 0)]: a negative offset is refused, by a file with
    an [OSError] and by a [BytesIO] with a [ValueError]; the model has the
    first for both. [extract] never seeks to a negative offset. *)
Definition seek (offset : Z) (f : stream) : exn + stream :=
  if offset <? 0 then inl OSError
  else inr {| content := content f; position := offset |}.

(** [handle.read(size)] for [size >= 0]: up to [size] bytes from the
    position, fewer at the end of the file. For a negative [size] the model
    returns everything that is left, as a [BytesIO] does; a file from
    [open(path, "rb")] does so for -1 only and raises a [ValueError] for
    another negative size. [extract] never passes a negative size, and no
    property of this development is about one. *)
Definition read (size : Z) (f : stream) : list byte * stream :=
  let rest := drop (Z.to_nat (position f)) (content f) in
  let data := if size <? 0 then rest else take (Z.to_nat size) rest in
  (data, {| content := content f;
            position := position f + Z.of_nat (length data) |}).

(** ** The handler interface and [DetailHandler] (lines 20-32) *)

Class Handler (H : Type) : Type := {
  h_set : string → value → H → H;
  h_get : string → H → exn + value
}.

(** The names that a [DetailHandler] has before any [set]: its stream
    [_stdout], its methods [set] and [get], and the names of [object],
    which all start with two underscores. [getattr] and [setattr] on one
    of them reach the object itself: [get("set")] is a bound method and
    [set("_stdout", v)] redirects the output. The twelve keys of [extract]
    are not among them. *)
Definition own_name (key : string) : bool :=
  bool_decide (key ∈ ["_stdout"; "set"; "get"]) || String.prefix "__" key.

(** [_stdout] is the text written so far, or [None]; [attrs] are the
    attributes that [setattr] has attached to the object under names that
    are not [own_name]s. What [set] and [get] do with an [own_name] is not
    modelled. *)
Record DetailHandler : Type := {
  _stdout : option (list string);
  attrs : gmap string value
}.

Definition newline : string := String (ascii_of_N 10) EmptyString.

Definition DetailHandler_set (key : string) (v : value) (self : DetailHandler)
  : DetailHandler :=
  {| _stdout :=
       match _stdout self with
       | Some out => Some (out ++ ["- " +:+ key +:+ " -> " +:+ py_str v +:+ newline])
       | None => None
       end;
     attrs := <[key := v]> (attrs self) |}.

Definition DetailHandler_get (key : string) (self : DetailHandler)
  : exn + value :=
  match attrs self !! key with
  | Some v => inr v
  | None => inl (AttributeError key)
  end.

#[export] Instance DetailHandler_Handler : Handler DetailHandler :=
  {| h_set := DetailHandler_set; h_get := DetailHandler_get |}.

(** ** Computations over the stream and the handler *)

Definition M (H A : Type) : Type := stream * H → (exn + A) * (stream * H).

#[export] Instance M_ret {H} : MRet (M H) := λ A a st, (inr a, st).

#[export] Instance M_bind {H} : MBind (M H) := λ A B k m st,
  match m st with
  | (inl e, st') => (inl e, st')
  | (inr a, st') => k a st'
  end.

Definition raise {H A} (e : exn) : M H A := λ st, (inl e, st).

Definition lift {H A} (r : exn + A) : M H A := λ st, (r, st).

Definition handler_set {H} `{Handler H} (key : string) (v : value) : M H unit :=
  λ st, (inr tt, (st.1, h_set key v st.2)).

Definition handler_get {H} `{Handler H} (key : string) : M H value :=
  λ st, (h_get key st.2, st).

(** ** [_get_sector] (lines 41-47) *)

Definition _get_sector {H} (number count : Z) : M H (list byte) :=
  λ st,
    match seek (number * SECTOR_SIZE) st.1 with
    | inl e => (inl e, st)
    | inr f =>
        let '(sector, f') := read (V_SECTOR_SIZE * count) f in
        if decide (Z.of_nat (length sector) ≠ V_SECTOR_SIZE * count)
        then (inl (ElToritoError "invalid sector read"), (f', st.2))
        else (inr sector, (f', st.2))
    end.

(** ** [extract] (lines 50-130)

    The body of [extract] is one straight-line function in the source. It is
    cut here at statement boundaries into the stages that the specification
    names, and [extract] is their sequence in program order. *)

Section Extract.
Context {H : Type} `{Handler H}.

(** [int(str(handler.get(key)))] *)
Definition get_int (key : string) : M H Z :=
  v ← handler_get key;
  lift (py_int (py_str v)).

(** Lines 55-68: the boot-record volume descriptor in sector 17. *)
Definition decode_boot_record : M H unit :=
  sector ← _get_sector 17 1;
  segment ← lift (unpack_B5sB32s32sL (slice 0 75 sector));
  let '(_, iso, vers, specifier, _, partition) := segment in
  iso ← lift (decode_ascii iso);
  handler_set "iso" (VStr iso);;
  handler_set "vers" (VInt vers);;
  spec ← lift (decode_ascii specifier);
  let spec := strip spec in
  handler_set "spec" (VStr (keep_upper_and_space spec));;
  handler_set "partition" (VInt partition);;
  iso ← handler_get "iso";
  if decide (iso ≠ VStr "CD001") then
    raise (ElToritoError "this is not a bootable cd-image")
  else
    spec ← handler_get "spec";
    if decide (strip (py_str spec) ≠ "EL TORITO SPECIFICATION") then
      raise (ElToritoError "this is not a bootable cd-image")
    else mret tt.

(** Lines 69-88: the catalog sector and its validation entry. Returns the
    sector, which line 89 reads again. *)
Definition decode_validation_entry : M H (list byte) :=
  partition ← get_int "partition";
  sector ← _get_sector partition 1;
  segment ← lift (unpack_BBH24sHBB (slice 0 32 sector));
  let '(header, platform, _, manufacturer, _, five, aa) := segment in
  handler_set "platform" (VInt platform);;
  manufacturer ← lift (decode_ascii manufacturer);
  handler_set "manufacturer" (VStr manufacturer);;
  if decide (header ≠ 1 ∨ five ≠ 0x55 ∨ aa ≠ 0xaa) then
    raise (ElToritoError "invalid validation entry")
  else
    platform ← get_int "platform";
    let platform_string :=
      if decide (platform = 0) then "x86"
      else if decide (platform = 1) then "PowerPC"
      else if decide (platform = 2) then "Mac"
      else "unknown" in
    handler_set "platform_string" (VStr platform_string);;
    mret sector.

(** Lines 89-99: the initial entry. Returns [cnt] and [start]. *)
Definition decode_initial_entry (sector : list byte) : M H (Z * Z) :=
  segment ← lift (unpack_BBHBBHLB (slice 32 45 sector));
  let '(boot, media, _, _, _, cnt, start, _) := segment in
  handler_set "media" (VInt media);;
  if decide (boot ≠ 0x88) then
    raise (ElToritoError "boot indicator is not 0x88, not bootable")
  else mret (cnt, start).

(** Lines 103-123: the label and the candidate sector count of a media
    type. The quotients of lines 108, 111 and 114 are exact, so the
    float division and [int] of the source lose nothing. *)
Definition classify_media (media start : Z) : M H (string * Z) :=
  if decide (media = 0) then mret ("no emulation", 0)
  else if decide (media = 1) then
    mret ("1.2meg floppy", (1200 * 1024) `quot` V_SECTOR_SIZE)
  else if decide (media = 2) then
    mret ("1.44meg floppy", (1440 * 1024) `quot` V_SECTOR_SIZE)
  else if decide (media = 3) then
    mret ("2.88meg floppy", (2880 * 1024) `quot` V_SECTOR_SIZE)
  else if decide (media = 4) then
    mbr ← _get_sector start 1;
    let part := slice 446 462 mbr in
    segment ← lift (unpack_8sLL part);
    let '(_, first, size) := segment in
    mret ("harddisk", first + size)
  else mret ("unknown", 0).

(** Lines 100-125: classification and the fallback to [cnt]. *)
Definition resolve_count (cnt start : Z) : M H (string * Z) :=
  media ← get_int "media";
  '(media_type, count) ← classify_media media start;
  let count := if decide (count = 0) then cnt else count in
  mret (media_type, count).

(** Lines 69-129: the catalog, up to the last report. Returns the start
    sector and the resolved sector count. *)
Definition decode_catalog : M H (Z * Z) :=
  sector ← decode_validation_entry;
  '(cnt, start) ← decode_initial_entry sector;
  '(media_type, count) ← resolve_count cnt start;
  handler_set "media_type" (VStr media_type);;
  handler_set "sector_size" (VInt V_SECTOR_SIZE);;
  handler_set "sector_count" (VInt count);;
  handler_set "sector_start" (VInt start);;
  mret (start, count).

(** Lines 55-129: everything before the final read. *)
Definition decode : M H (Z * Z) :=
  decode_boot_record;;
  decode_catalog.

(** Lines 55-130. *)
Definition extract_body : M H (list byte) :=
  '(start, count) ← decode;
  _get_sector start count.

(** [extract]: [None] for an argument is Python's [None]. *)
Definition extract (input_stream : option stream) (handler : option H)
  : (exn + list byte) * (option stream * option H) :=
  match input_stream, handler with
  | Some f, Some h =>
      let '(r, (f', h')) := extract_body (f, h) in (r, (Some f', Some h'))
  | _, _ =>
      (inl (ElToritoError
              "invalid arguments for extraction, all inputs must be set"),
       (input_stream, handler))
  end.
End Extract.

(** ** A handler that keeps what it is given *)

(** [extract] reads decoded fields back through [handler.get]; these two
    laws say that [get] returns what [set] stored last under a key. *)
Class HandlerLaws (H : Type) `{Handler H} : Prop := {
  h_get_set_eq : ∀ key v h, h_get key (h_set key v h) = inr v;
  h_get_set_ne : ∀ key key' v h,
    key ≠ key' → h_get key' (h_set key v h) = h_get key' h
}.

(** A subclass of [DetailHandler] whose [set] is overridden to do nothing:
    every reported pair is dropped, [get] is inherited. *)
Record QuietHandler : Type := { quiet_base : DetailHandler }.

#[export] Instance QuietHandler_Handler : Handler QuietHandler :=
  {| h_set := λ _ _ self, self;
     h_get := λ key self, DetailHandler_get key (quiet_base self) |}.

(** ** The on-disc records, by byte offset

    The fields that the formats of lines 57, 70, 89 and 119 cut out of the
    boot-record sector, the catalog sector and the first sector of the
    embedded image. *)

(** The bytes that a read of [count] blocks at physical sector [number]
    finds: [512 * count] of them, or fewer at the end of the image. *)
Definition bytes_at (number count : Z) (img : list byte) : list byte :=
  take (Z.to_nat (512 * count)) (drop (Z.to_nat (number * 2048)) img).

Definition sector_at (number : Z) (img : list byte) : list byte :=
  bytes_at number 1 img.

(** The stream after that read. *)
Definition after_read (number count : Z) (f : stream) : stream :=
  {| content := content f;
     position := number * 2048
                 + Z.of_nat (length (bytes_at number count (content f))) |}.

Definition readable (number : Z) (img : list byte) : Prop :=
  length (sector_at number img) = 512%nat.

#[export] Instance readable_dec number img : Decision (readable number img) :=
  decide (length (sector_at number img) = 512%nat).

(** BootRecordDescriptor, in sector 17. *)
Definition boot_system_identifier (img : list byte) : list byte :=
  slice 1 6 (sector_at 17 img).
Definition boot_system_specifier (img : list byte) : list byte :=
  slice 7 39 (sector_at 17 img).
Definition boot_catalog_sector (img : list byte) : Z :=
  le_uint (slice 71 75 (sector_at 17 img)).

Definition catalog_of (img : list byte) : list byte :=
  sector_at (boot_catalog_sector img) img.

(** ValidationEntry, bytes 0-31 of the catalog sector. *)
Definition header_id (img : list byte) : Z :=
  le_uint (slice 0 1 (catalog_of img)).
Definition platform_id (img : list byte) : Z :=
  le_uint (slice 1 2 (catalog_of img)).
Definition manufacturer_id (img : list byte) : list byte :=
  slice 4 28 (catalog_of img).
Definition key_byte_1 (img : list byte) : Z :=
  le_uint (slice 30 31 (catalog_of img)).
Definition key_byte_2 (img : list byte) : Z :=
  le_uint (slice 31 32 (catalog_of img)).

(** InitialEntry, bytes 32-44 of the catalog sector. *)
Definition boot_indicator (img : list byte) : Z :=
  le_uint (slice 32 33 (catalog_of img)).
Definition media_type (img : list byte) : Z :=
  le_uint (slice 33 34 (catalog_of img)).
Definition sector_count (img : list byte) : Z :=
  le_uint (slice 38 40 (catalog_of img)).
Definition load_rba (img : list byte) : Z :=
  le_uint (slice 40 44 (catalog_of img)).

(** PartitionTableEntry, bytes 446-461 of the sector at [load_rba]. *)
Definition first_sector_lba (img : list byte) : Z :=
  le_uint (slice 454 458 (sector_at (load_rba img) img)).
Definition sector_count_lba (img : list byte) : Z :=
  le_uint (slice 458 462 (sector_at (load_rba img) img)).

(** What lines 60-67 make of the specifier before comparing it. *)
Definition normalize_specifier (s : string) : string :=
  strip (keep_upper_and_space (strip s)).

(** The handler after lines 55-68, by how far they get. *)
Definition boot_record_handler {H} `{Handler H} (img : list byte) (h : H) : H :=
  if decide (readable 17 img) then
    if is_ascii (boot_system_identifier img) then
      let h1 :=
        h_set "vers" (VInt (le_uint (slice 6 7 (sector_at 17 img))))
          (h_set "iso" (VStr (string_of_list_byte (boot_system_identifier img)))
             h) in
      if is_ascii (boot_system_specifier img) then
        h_set "partition" (VInt (boot_catalog_sector img))
          (h_set "spec"
             (VStr (keep_upper_and_space
                      (strip (string_of_list_byte (boot_system_specifier img)))))
             h1)
      else h1
    else h
  else h.

(** ** The outcome of each stage as a function of the image

    For a handler that satisfies [HandlerLaws] the result of every stage is
    determined by the image alone; these functions say which result it is
    (lemmas [decode_boot_record_run] to [decode_run] below). *)

#[export] Instance result_bind : MBind (sum exn) := λ A B k r,
  match r with
  | inl e => inl e
  | inr a => k a
  end.

Definition boot_record_outcome (img : list byte) : exn + unit :=
  if decide (readable 17 img) then
    if is_ascii (boot_system_identifier img) then
      if is_ascii (boot_system_specifier img) then
        if decide (string_of_list_byte (boot_system_identifier img) = "CD001"
                   ∧ normalize_specifier
                       (string_of_list_byte (boot_system_specifier img))
                     = "EL TORITO SPECIFICATION")
        then inr tt
        else inl NotBootableError
      else inl UnicodeDecodeError
    else inl UnicodeDecodeError
  else inl TruncatedImageError.

Definition validation_entry_outcome (img : list byte) : exn + unit :=
  if decide (readable (boot_catalog_sector img) img) then
    if is_ascii (manufacturer_id img) then
      if decide (header_id img = 1 ∧ key_byte_1 img = 0x55
                 ∧ key_byte_2 img = 0xaa)
      then inr tt
      else inl InvalidValidationEntryError
    else inl UnicodeDecodeError
  else inl TruncatedImageError.

Definition initial_entry_outcome (img : list byte) : exn + unit :=
  if decide (boot_indicator img = 0x88) then inr tt
  else inl NotBootableEntryError.

(** The labels of lines 80-87 and 100-116. *)
Definition platform_label (platform : Z) : string :=
  if decide (platform = 0) then "x86"
  else if decide (platform = 1) then "PowerPC"
  else if decide (platform = 2) then "Mac"
  else "unknown".

Definition media_label (media : Z) : string :=
  if decide (media = 0) then "no emulation"
  else if decide (media = 1) then "1.2meg floppy"
  else if decide (media = 2) then "1.44meg floppy"
  else if decide (media = 3) then "2.88meg floppy"
  else if decide (media = 4) then "harddisk"
  else "unknown".

(** The candidate sector count of lines 103-123. *)
Definition candidate_outcome (img : list byte) : exn + Z :=
  let media := media_type img in
  if decide (media = 1) then inr 2400
  else if decide (media = 2) then inr 2880
  else if decide (media = 3) then inr 5760
  else if decide (media = 4) then
    if decide (readable (load_rba img) img)
    then inr (first_sector_lba img + sector_count_lba img)
    else inl TruncatedImageError
  else inr 0.

Definition catalog_outcome (img : list byte) : exn + (Z * Z) :=
  _ ← validation_entry_outcome img;
  _ ← initial_entry_outcome img;
  candidate ← candidate_outcome img;
  inr (load_rba img,
       if decide (candidate = 0) then sector_count img else candidate).

Definition decode_outcome (img : list byte) : exn + (Z * Z) :=
  _ ← boot_record_outcome img;
  catalog_outcome img.

Definition extract_outcome (img : list byte) : exn + list byte :=
  '(start, count) ← decode_outcome img;
  if decide (Z.of_nat (length (bytes_at start count img)) = 512 * count)
  then inr (bytes_at start count img)
  else inl TruncatedImageError.

(** ** Disc images for the examples

    Builders for small images: a boot-record descriptor in sector 17, a
    boot catalog, and for hard-disk media a partition table in the first
    sector of the embedded image. *)

Module Image.
Definition byte_of_Z (n : Z) : byte :=
  default x00 (Byte.of_N (Z.to_N (n `mod` 256))).

Fixpoint le_bytes (width : nat) (n : Z) : list byte :=
  match width with
  | O => []
  | S w => byte_of_Z n :: le_bytes w (n `div` 256)
  end.

Definition pad_to (n : nat) (bs : list byte) : list byte :=
  bs ++ replicate (n - length bs) x00.

Definition boot_record (iso specifier : list byte) (partition : Z)
  : list byte :=
  pad_to 512 ([x00] ++ iso ++ [x01] ++ pad_to 32 specifier
              ++ replicate 32 x00 ++ le_bytes 4 partition).

Definition catalog (header platform : Z) (manufacturer : list byte)
    (five aa boot media cnt start : Z) : list byte :=
  pad_to 512 ([byte_of_Z header; byte_of_Z platform; x00; x00]
              ++ pad_to 24 manufacturer
              ++ [x00; x00; byte_of_Z five; byte_of_Z aa]
              ++ [byte_of_Z boot; byte_of_Z media; x00; x00; x00; x00]
              ++ le_bytes 2 cnt ++ le_bytes 4 start ++ [x00]).

Definition mbr (first size : Z) : list byte :=
  pad_to 512 (replicate 454 x00 ++ le_bytes 4 first ++ le_bytes 4 size).

Definition el_torito : list byte :=
  list_byte_of_string "EL TORITO SPECIFICATION".

(** An image with the given boot record in sector 17, the given catalog
    sector in sector 18, and [rest] after the catalog's 512 bytes. *)
Definition make (record cat rest : list byte) : list byte :=
  replicate (17 * 2048) x00 ++ pad_to 2048 record ++ pad_to 512 cat ++ rest.

(** The rest of sector 18, so that what follows starts sector 19. *)
Definition gap : list byte := replicate 1536 x00.

Definition cd001 : list byte := list_byte_of_string "CD001".

(** A well-formed image with its catalog in sector 18. *)
Definition bootable (media cnt start : Z) (rest : list byte) : list byte :=
  make (boot_record cd001 el_torito 18)
    (catalog 1 0 [] 0x55 0xaa 0x88 media cnt start) rest.

Definition open (img : list byte) : stream :=
  {| content := img; position := 0 |}.

(** [DetailHandler()] writing to a fresh text stream, and
    [DetailHandler(None)]. *)
Definition printing : DetailHandler := {| _stdout := Some []; attrs := ∅ |}.
Definition silent : DetailHandler := {| _stdout := None; attrs := ∅ |}.
Definition quiet : QuietHandler := {| quiet_base := printing |}.

(** No emulation, 40 virtual sectors from sector 25. *)
Definition no_emulation_40_25 : list byte :=
  bootable 0 40 25 (gap ++ replicate (6 * 2048) x00 ++ replicate (40 * 512) x01).

(** No emulation, one virtual sector from sector 19; the same image one
    byte short; and an image that ends one byte before sector 19 and whose
    catalog gives a sector count of 0. *)
Definition one_sector : list byte := bootable 0 1 19 (gap ++ replicate 512 x01).
Definition one_byte_short : list byte :=
  bootable 0 1 19 (gap ++ replicate 511 x01).
Definition zero_count : list byte := bootable 0 0 19 (replicate 1535 x00).

(** Hard-disk media: a partition entry with [first] and [size] in the first
    sector of the embedded image, which starts at sector 19. *)
Definition hard_disk (cnt first size : Z) : list byte :=
  bootable 4 cnt 19 (gap ++ mbr first size).

(** A 1.44 MB floppy image, cut after the catalog. *)
Definition floppy_144 : list byte := bootable 2 7 19 [].

(** An unrecognized media type. *)
Definition media_9 : list byte := bootable 9 3 19 [].

(** The identifier [CD\xff01], which is not ASCII. *)
Definition non_ascii_identifier : list byte :=
  make (boot_record [x43; x44; xff; x30; x31] el_torito 18)
    (catalog 1 0 [] 0x55 0xaa 0x88 0 1 19) (gap ++ replicate 512 x01).

(** The identifier [CD002]. *)
Definition cd002 : list byte :=
  make (boot_record (list_byte_of_string "CD002") el_torito 18)
    (catalog 1 0 [] 0x55 0xaa 0x88 0 1 19) (gap ++ replicate 512 x01).

(** The specifier padded to its 32 bytes with spaces. *)
Definition space_padded_specifier : list byte :=
  make (boot_record cd001 (el_torito ++ replicate 9 x20) 18)
    (catalog 1 0 [] 0x55 0xaa 0x88 0 1 19) (gap ++ replicate 512 x01).

(** A validation entry with header id 0 and a manufacturer that is not
    ASCII; the same with swapped key bytes and an ASCII manufacturer; and a
    valid one for platform 7. *)
Definition bad_header_non_ascii_manufacturer : list byte :=
  make (boot_record cd001 el_torito 18)
    (catalog 0 0 [xff] 0x55 0xaa 0x88 0 1 19) (gap ++ replicate 512 x01).
Definition swapped_keys : list byte :=
  make (boot_record cd001 el_torito 18)
    (catalog 1 0 [] 0xaa 0x55 0x88 0 1 19) (gap ++ replicate 512 x01).
Definition platform_7 : list byte :=
  make (boot_record cd001 el_torito 18)
    (catalog 1 7 [] 0x55 0xaa 0x88 0 1 19) (gap ++ replicate 512 x01).
End Image.

(** ** What [extract] reports

    The pairs that lines 58-129 hand to [handler.set], in program order,
    with the values read off the image. *)

(** The sector count of lines 100-125. *)
Definition resolved_sector_count (img : list byte) : Z :=
  let media := media_type img in
  let count :=
    if decide (media = 1) then 2400
    else if decide (media = 2) then 2880
    else if decide (media = 3) then 5760
    else if decide (media = 4)
         then first_sector_lba img + sector_count_lba img
    else 0 in
  if decide (count = 0) then sector_count img else count.

Definition reports (img : list byte) : list (string * value) :=
  [ ("iso", VStr (string_of_list_byte (boot_system_identifier img)));
    ("vers", VInt (le_uint (slice 6 7 (sector_at 17 img))));
    ("spec",
     VStr (keep_upper_and_space
             (strip (string_of_list_byte (boot_system_specifier img)))));
    ("partition", VInt (boot_catalog_sector img));
    ("platform", VInt (platform_id img));
    ("manufacturer", VStr (string_of_list_byte (manufacturer_id img)));
    ("platform_string", VStr (platform_label (platform_id img)));
    ("media", VInt (media_type img));
    ("media_type", VStr (media_label (media_type img)));
    ("sector_size", VInt V_SECTOR_SIZE);
    ("sector_count", VInt (resolved_sector_count img));
    ("sector_start", VInt (load_rba img)) ].

(** [handler.set] for each pair in turn. *)
Definition report_all {H} `{Handler H} (pairs : list (string * value)) (h : H)
  : H :=
  foldl (λ h kv, h_set kv.1 kv.2 h) h pairs.

(** How many of the pairs [extract] gets to report on an image: all twelve
    unless a stage fails before (the final read comes after the last). *)
Definition reported_count (img : list byte) : nat :=
  if decide (readable 17 img) then
    if is_ascii (boot_system_identifier img) then
      if is_ascii (boot_system_specifier img) then
        match boot_record_outcome img with
        | inl _ => 4
        | inr _ =>
            if decide (readable (boot_catalog_sector img) img) then
              if is_ascii (manufacturer_id img) then
                match validation_entry_outcome img with
                | inl _ => 6
                | inr _ =>
                    match initial_entry_outcome img, candidate_outcome img with
                    | inr _, inr _ => 12
                    | _, _ => 8
                    end
                end
              else 5
            else 4
        end
      else 2
    else 0
  else 0.

(** The line that [DetailHandler.set] writes for a pair. *)
Definition report_line (kv : string * value) : string :=
  "- " +:+ kv.1 +:+ " -> " +:+ py_str kv.2 +:+ newline.

(** ** [main] (lines 133-154)

    [main] after [parse_args]: the two paths are its arguments. [files]
    maps each path that exists to what it names; [create] says what
    happens when a file is opened for writing at a path where nothing
    exists; [stdout] is the list of strings written to [sys.stdout].
    [exit(1)] ends the run with status 1; an exception that [main] does
    not catch ends it with that exception. *)

(** What a path names: a regular file that can be read, or something that
    exists but that [open(path, "rb")] refuses with an [OSError], such as a
    directory or a file without read permission. *)
Inductive node : Type :=
  | File (data : list byte)
  | Unreadable.

(** What [open(path, "wb")] and the write do at a path where nothing
    exists: the file is created and written; [open] raises an [OSError]
    and nothing is created (a missing or read-only directory); or the file
    is created and an [OSError] cuts the write short after [n] bytes (a
    full disk). *)
Inductive creation : Type :=
  | Created
  | Refused
  | Cut (n : nat).

Record world : Type := {
  files : gmap string node;
  create : string → creation;
  stdout : list string
}.

Inductive outcome : Type :=
  | Returned
  | Exited (code : Z)
  | Raised (e : exn).

(** [print(s)]: writes [s], then the line end. *)
Definition print (s : string) (out : list string) : list string :=
  out ++ [s; newline].

(** [DetailHandler()]: its [_stdout] is [sys.stdout]. *)
Definition new_handler (w : world) : DetailHandler :=
  {| _stdout := Some (stdout w); attrs := ∅ |}.

(** [sys.stdout] after the handler has written to it. *)
Definition handler_stdout (handler : option DetailHandler) (w : world)
  : list string :=
  match handler with
  | Some {| _stdout := Some out |} => out
  | _ => stdout w
  end.

(** Lines 148-150: the output is opened and written only after [extract]
    has returned. An [OSError] here is inside the [try] but is not an
    [ElToritoError], so it escapes. *)
Definition write_output (output : string) (b : list byte)
    (out : list string) (w : world) : outcome * world :=
  match create w output with
  | Created =>
      (Returned,
       {| files := <[output := File b]> (files w);
          create := create w;
          stdout := print "image written successfully" out |})
  | Refused =>
      (Raised OSError,
       {| files := files w; create := create w; stdout := out |})
  | Cut n =>
      (Raised OSError,
       {| files := <[output := File (take n b)]> (files w);
          create := create w;
          stdout := out |})
  end.

Definition main (input output : string) (w : world) : outcome * world :=
  match files w !! input with
  | None =>
      (Exited 1,
       {| files := files w;
          create := create w;
          stdout := print ("unable to find " +:+ input) (stdout w) |})
  | Some source =>
      match files w !! output with
      | Some _ =>
          (Exited 1,
           {| files := files w;
              create := create w;
              stdout := print ("output file already exists " +:+ output)
                          (stdout w) |})
      | None =>
          match source with
          | Unreadable => (Raised OSError, w)
          | File img =>
              let '(r, (_, handler)) :=
                extract (Some {| content := img; position := 0 |})
                  (Some (new_handler w)) in
              let out := handler_stdout handler w in
              match r with
              | inr b => write_output output b out w
              | inl (ElToritoError message) =>
                  (Returned,
                   {| files := files w;
                      create := create w;
                      stdout :=
                        print message
                          (print
                             "unable to extract image, eltorito format error"
                             out) |})
              | inl e =>
                  (Raised e,
                   {| files := files w; create := create w; stdout := out |})
              end
          end
      end
  end.

(** * Lemmas on the model *)

(** ** Arithmetic of the decoders *)

Lemma py_int_str (n : Z) : py_int (py_str (VInt n)) = inr n.
Proof.
  unfold py_int, py_str.
  rewrite NilZero.isi.
  - by rewrite DecimalZ.of_to.
  - destruct n; simpl; try discriminate.
    intros [=Hp]. by apply DecimalPos.Unsigned.to_uint_nonnil in Hp.
  - destruct n; simpl; try discriminate.
    intros [=Hp]. by apply DecimalPos.Unsigned.to_uint_nonnil in Hp.
Qed.

Lemma byte_to_Z_range (b : byte) : 0 ≤ byte_to_Z b < 256.
Proof.
  unfold byte_to_Z. pose proof (Byte.to_N_bounded b) as Hb.
  lia.
Qed.

Lemma le_uint_nonneg (bs : list byte) : 0 ≤ le_uint bs.
Proof.
  induction bs as [|b bs IH]; simpl; [lia|].
  pose proof (byte_to_Z_range b). lia.
Qed.

Lemma le_uint_bound (bs : list byte) : le_uint bs < 256 ^ Z.of_nat (length bs).
Proof.
  induction bs as [|b bs IH]; simpl length; [simpl; lia|].
  rewrite Nat2Z.inj_succ, Z.pow_succ_r by lia.
  change (le_uint (b :: bs)) with (byte_to_Z b + 256 * le_uint bs).
  pose proof (byte_to_Z_range b). lia.
Qed.

(** ** Slices *)

Lemma length_slice (a b : nat) (l : list byte) :
  length (slice a b l) = ((b - a) `min` (length l - a))%nat.
Proof. unfold slice. by rewrite length_take, length_drop. Qed.

Lemma slice_slice (a b c d : nat) (l : list byte) :
  (c + b ≤ d)%nat →
  slice a b (slice c d l) = slice (c + a) (c + b) l.
Proof.
  intros Hle. unfold slice.
  rewrite skipn_firstn_comm, take_take, drop_drop.
  f_equal. lia.
Qed.


(** ** Running the stages *)

Section Run.
Context {H : Type} `{HL : HandlerLaws H}.

Lemma bind_run {A B} (m : M H A) (k : A → M H B) (st : stream * H) :
  (m ≫= k) st =
  match m st with
  | (inl e, st') => (inl e, st')
  | (inr a, st') => k a st'
  end.
Proof. reflexivity. Qed.

Lemma bind_inl {A B} (m : M H A) (k : A → M H B) (st st' : stream * H)
    (e : exn) :
  m st = (inl e, st') → (m ≫= k) st = (inl e, st').
Proof. intros Hm. by rewrite bind_run, Hm. Qed.

Lemma bind_inr {A B} (m : M H A) (k : A → M H B) (st st' : stream * H)
    (a : A) :
  m st = (inr a, st') → (m ≫= k) st = k a st'.
Proof. intros Hm. by rewrite bind_run, Hm. Qed.

Lemma result_bind_inl {A B} (e : exn) (k : A → exn + B) :
  (inl e ≫= k) = inl e.
Proof. reflexivity. Qed.

Lemma result_bind_inr {A B} (a : A) (k : A → exn + B) :
  (inr a ≫= k) = k a.
Proof. reflexivity. Qed.

Lemma _get_sector_run (number count : Z) (f : stream) (h : H) :
  0 ≤ number → 0 ≤ count →
  _get_sector number count (f, h) =
  (if decide (Z.of_nat (length (bytes_at number count (content f))) = 512 * count)
   then inr (bytes_at number count (content f))
   else inl TruncatedImageError,
   (after_read number count f, h)).
Proof.
  intros Hn Hc. unfold _get_sector, seek, read, after_read, bytes_at.
  unfold SECTOR_SIZE, V_SECTOR_SIZE. cbn [fst snd].
  destruct (Z.ltb_spec (number * 2048) 0) as [?|_]; [lia|].
  cbn [content position].
  destruct (Z.ltb_spec (512 * count) 0) as [?|_]; [lia|].
  destruct (decide (Z.of_nat _ ≠ 512 * count)) as [Hne|Heq];
    destruct (decide (Z.of_nat _ = 512 * count)) as [Heq'|Hne']; done.
Qed.

Lemma length_sector_at_le (number : Z) (img : list byte) :
  (length (sector_at number img) ≤ 512)%nat.
Proof.
  unfold sector_at, bytes_at. rewrite length_take.
  change (Z.to_nat (512 * 1)) with 512%nat. lia.
Qed.

Lemma _get_sector_one (number : Z) (f : stream) (h : H) :
  0 ≤ number →
  _get_sector number 1 (f, h) =
  (if decide (readable number (content f))
   then inr (sector_at number (content f))
   else inl TruncatedImageError,
   (after_read number 1 f, h)).
Proof.
  intros Hn. rewrite _get_sector_run by lia. f_equal.
  unfold readable, sector_at.
  destruct (decide (Z.of_nat _ = 512 * 1)) as [Heq|Hne];
    destruct (decide (length _ = 512%nat)) as [Heq'|Hne']; try done; lia.
Qed.

Lemma handler_set_run (key : string) (v : value) (f : stream) (h : H) :
  handler_set key v (f, h) = (inr tt, (f, h_set key v h)).
Proof. reflexivity. Qed.

Lemma handler_get_run (key : string) (f : stream) (h : H) :
  handler_get key (f, h) = (h_get key h, (f, h)).
Proof. reflexivity. Qed.

Lemma get_int_run (key : string) (n : Z) (f : stream) (h : H) :
  h_get key h = inr (VInt n) → get_int key (f, h) = (inr n, (f, h)).
Proof.
  intros Hget. unfold get_int.
  rewrite bind_run, handler_get_run, Hget. unfold lift.
  by rewrite py_int_str.
Qed.

Lemma decode_boot_record_run (f : stream) (h : H) :
  decode_boot_record (f, h)
  = (boot_record_outcome (content f),
     (after_read 17 1 f, boot_record_handler (content f) h)).
Proof.
  unfold decode_boot_record, boot_record_outcome, boot_record_handler.
  rewrite bind_run, _get_sector_one by lia.
  destruct (decide (readable 17 (content f))) as [Hr|Hr]; [|done].
  assert (length (slice 0 75 (sector_at 17 (content f))) = 75%nat) as Hlen.
  { rewrite length_slice. unfold readable in Hr. lia. }
  rewrite bind_run. unfold lift at 1, unpack_B5sB32s32sL.
  destruct (decide (length (slice 0 75 _) = 75%nat)); [|done].
  cbv beta iota.
  rewrite !(slice_slice _ _ 0 75) by lia. cbn [Nat.add].
  fold (boot_system_identifier (content f)).
  fold (boot_system_specifier (content f)).
  fold (boot_catalog_sector (content f)).
  rewrite bind_run. unfold lift at 1, decode_ascii at 1.
  destruct (is_ascii (boot_system_identifier (content f))); [|done].
  rewrite bind_run, handler_set_run, bind_run, handler_set_run.
  rewrite bind_run. unfold lift at 1, decode_ascii at 1.
  destruct (is_ascii (boot_system_specifier (content f))); [|done].
  rewrite bind_run, handler_set_run, bind_run, handler_set_run.
  rewrite bind_run, handler_get_run.
  rewrite !h_get_set_ne, h_get_set_eq by done.
  unfold normalize_specifier, NotBootableError.
  destruct (decide (VStr _ ≠ VStr "CD001")) as [Hne|Heq].
  { rewrite decide_False; [done|]. intros [Heq _]. by rewrite Heq in Hne. }
  apply dec_stable in Heq. injection Heq as Heq.
  rewrite bind_run, handler_get_run.
  rewrite !h_get_set_ne, h_get_set_eq by done.
  cbn [py_str].
  destruct (decide (strip _ ≠ _)) as [Hne|Heq'].
  - rewrite decide_False; [done|]. by intros [_ ?].
  - apply dec_stable in Heq'. by rewrite decide_True.
Qed.

Lemma boot_record_partition (img : list byte) (h : H) :
  boot_record_outcome img = inr tt →
  h_get "partition" (boot_record_handler img h)
  = inr (VInt (boot_catalog_sector img)).
Proof.
  unfold boot_record_outcome, boot_record_handler.
  repeat case_match; try done.
  intros _. by rewrite h_get_set_eq.
Qed.

Lemma decode_validation_entry_run (img : list byte) (f : stream) (h : H) :
  content f = img →
  h_get "partition" h = inr (VInt (boot_catalog_sector img)) →
  ∃ f' h',
    decode_validation_entry (f, h)
    = (_ ← validation_entry_outcome img; inr (catalog_of img), (f', h'))
    ∧ content f' = img.
Proof.
  intros <- Hp. unfold decode_validation_entry, validation_entry_outcome.
  rewrite bind_run, (get_int_run _ _ _ _ Hp).
  rewrite bind_run, _get_sector_one by apply le_uint_nonneg.
  exists (after_read (boot_catalog_sector (content f)) 1 f).
  fold (catalog_of (content f)).
  destruct (decide (readable _ (content f))) as [Hr|Hr]; [|by eexists].
  assert (length (slice 0 32 (catalog_of (content f))) = 32%nat) as Hlen.
  { rewrite length_slice. unfold readable in Hr. unfold catalog_of. lia. }
  rewrite bind_run. unfold lift at 1, unpack_BBH24sHBB.
  destruct (decide (length (slice 0 32 _) = 32%nat)); [|done].
  cbv beta iota.
  rewrite !(slice_slice _ _ 0 32) by lia. cbn [Nat.add].
  unfold header_id, key_byte_1, key_byte_2, manufacturer_id.
  rewrite bind_run, handler_set_run.
  rewrite bind_run. unfold lift at 1, decode_ascii at 1.
  destruct (is_ascii (slice 4 28 (catalog_of (content f)))); [|by eexists].
  rewrite bind_run, handler_set_run.
  destruct (decide (_ ≠ 1 ∨ _ ∨ _)) as [Hbad|Hok].
  - rewrite decide_False by (intros (?&?&?); by destruct Hbad as [?|[?|?]]).
    by eexists.
  - rewrite decide_True by (repeat split; apply dec_stable; tauto).
    erewrite bind_run, get_int_run;
      last by rewrite h_get_set_ne, h_get_set_eq.
    rewrite bind_run, handler_set_run.
    by eexists.
Qed.

Lemma decode_initial_entry_run (img : list byte) (f : stream) (h : H) :
  readable (boot_catalog_sector img) img →
  ∃ h',
    decode_initial_entry (catalog_of img) (f, h)
    = (_ ← initial_entry_outcome img;
       inr (sector_count img, load_rba img),
       (f, h'))
    ∧ h_get "media" h' = inr (VInt (media_type img)).
Proof.
  intros Hr. unfold decode_initial_entry, initial_entry_outcome.
  assert (length (slice 32 45 (catalog_of img)) = 13%nat) as Hlen.
  { rewrite length_slice. unfold readable in Hr. unfold catalog_of. lia. }
  rewrite bind_run. unfold lift at 1, unpack_BBHBBHLB.
  destruct (decide (length (slice 32 45 _) = 13%nat)); [|done].
  cbv beta iota.
  rewrite !(slice_slice _ _ 32 45) by lia. cbn [Nat.add].
  unfold boot_indicator, media_type, sector_count, load_rba.
  rewrite bind_run, handler_set_run.
  eexists. split; [|by rewrite h_get_set_eq].
  destruct (decide (_ ≠ _)) as [Hbad|Hok].
  - by rewrite decide_False.
  - apply dec_stable in Hok. by rewrite decide_True.
Qed.

Lemma classify_media_run (img : list byte) (f : stream) (h : H) :
  content f = img →
  ∃ f',
    classify_media (media_type img) (load_rba img) (f, h)
    = (candidate ← candidate_outcome img;
       inr (media_label (media_type img), candidate),
       (f', h))
    ∧ content f' = img.
Proof.
  intros <-. unfold classify_media, candidate_outcome, media_label.
  generalize (media_type (content f)). intros media.
  destruct (decide (media = 0)) as [->|?]; [by eexists|].
  destruct (decide (media = 1)) as [->|?]; [by eexists|].
  destruct (decide (media = 2)) as [->|?]; [by eexists|].
  destruct (decide (media = 3)) as [->|?]; [by eexists|].
  destruct (decide (media = 4)) as [->|?]; [|by eexists].
  rewrite bind_run, _get_sector_one by apply le_uint_nonneg.
  exists (after_read (load_rba (content f)) 1 f). split; [|done].
  destruct (decide (readable _ (content f))) as [Hr|Hr]; [|done].
  assert (length (slice 446 462 (sector_at (load_rba (content f)) (content f)))
          = 16%nat) as Hlen.
  { rewrite length_slice. unfold readable in Hr. lia. }
  rewrite bind_run. unfold lift at 1, unpack_8sLL.
  destruct (decide (length (slice 446 462 _) = 16%nat)); [|done].
  cbv beta iota.
  rewrite !(slice_slice _ _ 446 462) by lia. cbn [Nat.add].
  done.
Qed.

Lemma resolve_count_run (img : list byte) (f : stream) (h : H) :
  content f = img →
  h_get "media" h = inr (VInt (media_type img)) →
  ∃ f',
    resolve_count (sector_count img) (load_rba img) (f, h)
    = (candidate ← candidate_outcome img;
       inr (media_label (media_type img),
            if decide (candidate = 0) then sector_count img else candidate),
       (f', h))
    ∧ content f' = img.
Proof.
  intros Hc Hm. unfold resolve_count.
  rewrite bind_run, (get_int_run _ _ _ _ Hm), bind_run.
  destruct (classify_media_run img f h Hc) as (f' & -> & Hc').
  exists f'. split; [|done].
  by destruct (candidate_outcome img).
Qed.

Lemma validation_entry_readable (img : list byte) :
  validation_entry_outcome img = inr tt →
  readable (boot_catalog_sector img) img.
Proof. unfold validation_entry_outcome. by case_decide. Qed.

Lemma decode_catalog_run (img : list byte) (f : stream) (h : H) :
  content f = img →
  h_get "partition" h = inr (VInt (boot_catalog_sector img)) →
  ∃ f' h',
    decode_catalog (f, h) = (catalog_outcome img, (f', h'))
    ∧ content f' = img
    ∧ ∀ start count,
        catalog_outcome img = inr (start, count) →
        h_get "sector_start" h' = inr (VInt start)
        ∧ h_get "sector_count" h' = inr (VInt count).
Proof.
  intros Hc Hp. unfold decode_catalog, catalog_outcome.
  destruct (decode_validation_entry_run img f h Hc Hp)
    as (f1 & h1 & Hrun1 & Hc1).
  destruct (validation_entry_outcome img) as [e|[]] eqn:Hv.
  { rewrite result_bind_inl in Hrun1. rewrite result_bind_inl.
    rewrite (bind_inl _ _ _ _ _ Hrun1).
    exists f1, h1. split; [reflexivity|]. split; [exact Hc1|]. intros ?? [=]. }
  apply validation_entry_readable in Hv.
  rewrite result_bind_inr in Hrun1. rewrite result_bind_inr.
  rewrite (bind_inr _ _ _ _ _ Hrun1).
  destruct (decode_initial_entry_run img f1 h1 Hv) as (h2 & Hrun2 & Hm).
  destruct (initial_entry_outcome img) as [e|[]].
  { rewrite result_bind_inl in Hrun2. rewrite result_bind_inl.
    rewrite (bind_inl _ _ _ _ _ Hrun2).
    exists f1, h2. split; [reflexivity|]. split; [exact Hc1|]. intros ?? [=]. }
  rewrite result_bind_inr in Hrun2. rewrite result_bind_inr.
  rewrite (bind_inr _ _ _ _ _ Hrun2). cbv beta iota.
  destruct (resolve_count_run img f1 h2 Hc1 Hm) as (f2 & Hrun3 & Hc2).
  destruct (candidate_outcome img) as [e|candidate].
  { rewrite result_bind_inl in Hrun3. rewrite result_bind_inl.
    rewrite (bind_inl _ _ _ _ _ Hrun3).
    exists f2, h2. split; [reflexivity|]. split; [exact Hc2|]. intros ?? [=]. }
  rewrite result_bind_inr in Hrun3. rewrite result_bind_inr.
  rewrite (bind_inr _ _ _ _ _ Hrun3). cbv beta iota.
  rewrite (bind_inr _ _ _ _ _ (handler_set_run _ _ _ _)).
  rewrite (bind_inr _ _ _ _ _ (handler_set_run _ _ _ _)).
  rewrite (bind_inr _ _ _ _ _ (handler_set_run _ _ _ _)).
  rewrite (bind_inr _ _ _ _ _ (handler_set_run _ _ _ _)).
  do 2 eexists. split; [reflexivity|]. split; [exact Hc2|].
  intros start count [= <- <-].
  split; [by rewrite h_get_set_eq|].
  by rewrite h_get_set_ne, h_get_set_eq by done.
Qed.

Lemma decode_run (f : stream) (h : H) :
  ∃ f' h',
    decode (f, h) = (decode_outcome (content f), (f', h'))
    ∧ content f' = content f
    ∧ ∀ start count,
        decode_outcome (content f) = inr (start, count) →
        h_get "sector_start" h' = inr (VInt start)
        ∧ h_get "sector_count" h' = inr (VInt count).
Proof.
  unfold decode, decode_outcome.
  pose proof (decode_boot_record_run f h) as Hrun.
  destruct (boot_record_outcome (content f)) as [e|[]] eqn:Hb.
  { rewrite result_bind_inl, (bind_inl _ _ _ _ _ Hrun).
    do 2 eexists. split; [reflexivity|]. split; [reflexivity|]. intros ?? [=]. }
  rewrite result_bind_inr, (bind_inr _ _ _ _ _ Hrun).
  apply (boot_record_partition _ h) in Hb.
  apply (decode_catalog_run (content f) (after_read 17 1 f) _ eq_refl Hb).
Qed.

Lemma candidate_outcome_nonneg (img : list byte) (candidate : Z) :
  candidate_outcome img = inr candidate → 0 ≤ candidate.
Proof.
  unfold candidate_outcome, first_sector_lba, sector_count_lba.
  pose proof (le_uint_nonneg
                (slice 454 458 (sector_at (load_rba img) img))).
  pose proof (le_uint_nonneg
                (slice 458 462 (sector_at (load_rba img) img))).
  generalize (media_type img). intros media.
  destruct (decide (media = 1)); [intros [= <-]; lia|].
  destruct (decide (media = 2)); [intros [= <-]; lia|].
  destruct (decide (media = 3)); [intros [= <-]; lia|].
  destruct (decide (media = 4)); [|intros [= <-]; lia].
  destruct (decide (readable _ img)); [|done].
  intros Heq. assert (candidate
                      = le_uint (slice 454 458 (sector_at (load_rba img) img))
                        + le_uint (slice 458 462 (sector_at (load_rba img) img)))
    as -> by congruence.
  lia.
Qed.

Lemma decode_outcome_nonneg (img : list byte) (start count : Z) :
  decode_outcome img = inr (start, count) → 0 ≤ start ∧ 0 ≤ count.
Proof.
  unfold decode_outcome, catalog_outcome.
  destruct (boot_record_outcome img) as [|[]]; [done|].
  destruct (validation_entry_outcome img) as [|[]]; [done|].
  destruct (initial_entry_outcome img) as [|[]]; [done|].
  destruct (candidate_outcome img) as [|candidate] eqn:Hc; [done|].
  apply candidate_outcome_nonneg in Hc.
  cbn [mbind result_bind]. intros [= <- <-].
  split; [apply le_uint_nonneg|].
  case_decide; [apply le_uint_nonneg|done].
Qed.

Lemma extract_body_run (f : stream) (h : H) :
  ∃ f' h',
    extract_body (f, h) = (extract_outcome (content f), (f', h'))
    ∧ content f' = content f
    ∧ ∀ start count,
        decode_outcome (content f) = inr (start, count) →
        h_get "sector_start" h' = inr (VInt start)
        ∧ h_get "sector_count" h' = inr (VInt count).
Proof.
  unfold extract_body, extract_outcome.
  destruct (decode_run f h) as (f1 & h1 & Hrun & Hc & Hrep).
  destruct (decode_outcome (content f)) as [e|[start count]] eqn:Hd.
  { rewrite result_bind_inl, (bind_inl _ _ _ _ _ Hrun).
    exists f1, h1. split; [reflexivity|]. split; [exact Hc|]. intros ?? [=]. }
  apply decode_outcome_nonneg in Hd as [Hs Hn].
  rewrite result_bind_inr, (bind_inr _ _ _ _ _ Hrun). cbv beta iota.
  rewrite _get_sector_run by done. rewrite Hc.
  exists (after_read start count f1), h1.
  split; [reflexivity|]. split; [exact Hc|]. exact Hrep.
Qed.

Lemma extract_run (f : stream) (h : H) :
  ∃ f' h',
    extract (Some f) (Some h)
    = (extract_outcome (content f), (Some f', Some h'))
    ∧ content f' = content f
    ∧ ∀ start count,
        decode_outcome (content f) = inr (start, count) →
        h_get "sector_start" h' = inr (VInt start)
        ∧ h_get "sector_count" h' = inr (VInt count).
Proof.
  unfold extract.
  destruct (extract_body_run f h) as (f' & h' & -> & Hc & Hrep).
  by exists f', h'.
Qed.

Lemma extract_result (f : stream) (h : H) :
  (extract (Some f) (Some h)).1 = extract_outcome (content f).
Proof. by destruct (extract_run f h) as (f' & h' & -> & _). Qed.

Lemma decode_result (f : stream) (h : H) :
  (decode (f, h)).1 = decode_outcome (content f).
Proof. by destruct (decode_run f h) as (f' & h' & -> & _). Qed.

Lemma decode_outcome_inv (img : list byte) (start count : Z) :
  decode_outcome img = inr (start, count) →
  boot_record_outcome img = inr tt
  ∧ validation_entry_outcome img = inr tt
  ∧ initial_entry_outcome img = inr tt
  ∧ start = load_rba img
  ∧ ∃ candidate,
      candidate_outcome img = inr candidate
      ∧ count = if decide (candidate = 0) then sector_count img else candidate.
Proof.
  unfold decode_outcome, catalog_outcome.
  destruct (boot_record_outcome img) as [|[]]; [done|].
  destruct (validation_entry_outcome img) as [|[]]; [done|].
  destruct (initial_entry_outcome img) as [|[]]; [done|].
  destruct (candidate_outcome img) as [|candidate]; [done|].
  cbn [mbind result_bind]. intros [= <- <-]. eauto 10.
Qed.

Lemma extract_outcome_inv (img bytes : list byte) :
  extract_outcome img = inr bytes →
  ∃ start count,
    decode_outcome img = inr (start, count)
    ∧ bytes = bytes_at start count img
    ∧ Z.of_nat (length bytes) = 512 * count.
Proof.
  unfold extract_outcome.
  destruct (decode_outcome img) as [|[start count]]; [done|].
  cbn [mbind result_bind]. case_decide; [|done].
  intros [= <-]. eauto.
Qed.
End Run.

(** [DetailHandler] keeps what it is given, whatever its output stream. *)
#[export] Instance DetailHandler_laws : HandlerLaws DetailHandler.
Proof.
  split.
  - intros key v h. unfold h_get, h_set; simpl.
    unfold DetailHandler_get, DetailHandler_set; simpl.
    by rewrite lookup_insert_eq.
  - intros key key' v h Hne. unfold h_get, h_set; simpl.
    unfold DetailHandler_get, DetailHandler_set; simpl.
    by rewrite lookup_insert_ne.
Qed.

(** * Properties of the specification *)

(** ** What the outcomes say about the decoded fields *)

Lemma candidate_outcome_cases (img : list byte) (candidate : Z) :
  candidate_outcome img = inr candidate →
  (media_type img = 1 → candidate = 2400)
  ∧ (media_type img = 2 → candidate = 2880)
  ∧ (media_type img = 3 → candidate = 5760)
  ∧ (media_type img = 4 →
     readable (load_rba img) img
     ∧ candidate = first_sector_lba img + sector_count_lba img)
  ∧ (media_type img = 0 ∨ ¬ (0 ≤ media_type img ≤ 4) → candidate = 0).
Proof.
  unfold candidate_outcome.
  generalize (media_type img). intros media.
  destruct (decide (media = 1)) as [->|?];
    [intros [= <-]; repeat split; intros; lia|].
  destruct (decide (media = 2)) as [->|?];
    [intros [= <-]; repeat split; intros; lia|].
  destruct (decide (media = 3)) as [->|?];
    [intros [= <-]; repeat split; intros; lia|].
  destruct (decide (media = 4)) as [->|?].
  - destruct (decide (readable _ img)) as [Hr|?]; [|done].
    intros Heq.
    assert (candidate = first_sector_lba img + sector_count_lba img)
      as -> by congruence.
    repeat split; intros; try lia; done.
  - intros Heq. assert (candidate = 0) as -> by congruence.
    repeat split; intros; lia.
Qed.

(** The count that [resolve_count] returns is [resolved_sector_count]. *)
Lemma resolved_sector_count_candidate (img : list byte) (candidate : Z) :
  candidate_outcome img = inr candidate →
  (if decide (candidate = 0) then sector_count img else candidate)
  = resolved_sector_count img.
Proof.
  unfold candidate_outcome, resolved_sector_count.
  generalize (media_type img). intros media.
  destruct (decide (media = 1)); [by intros [= <-]|].
  destruct (decide (media = 2)); [by intros [= <-]|].
  destruct (decide (media = 3)); [by intros [= <-]|].
  destruct (decide (media = 4)); [|by intros [= <-]].
  destruct (decide (readable _ img)); [|done].
  intros Heq.
  assert (candidate = first_sector_lba img + sector_count_lba img)
    as -> by congruence.
  reflexivity.
Qed.

Lemma length_bytes_at (number count : Z) (img : list byte) :
  0 ≤ count →
  Z.of_nat (length (bytes_at number count img))
  = (512 * count) `min`
    Z.of_nat (length (drop (Z.to_nat (number * 2048)) img)).
Proof. intros Hc. unfold bytes_at. rewrite length_take. lia. Qed.

(** Every failure of [extract] on a source and a handler that are there is
    one of four of the five [ElToritoError]s or a [UnicodeDecodeError]. *)
Lemma extract_failure_kinds {H : Type} `{HL : HandlerLaws H}
    (f : stream) (h : H) (e : exn) :
  (extract (Some f) (Some h)).1 = inl e →
  in_taxonomy e ∨ e = UnicodeDecodeError.
Proof.
  rewrite extract_result.
  unfold extract_outcome, decode_outcome, catalog_outcome.
  destruct (boot_record_outcome (content f)) as [e1|[]] eqn:Hb.
  { rewrite !result_bind_inl. intros [= <-].
    revert Hb. unfold boot_record_outcome, in_taxonomy.
    repeat case_match; intros [= <-]; tauto. }
  rewrite result_bind_inr.
  destruct (validation_entry_outcome (content f)) as [e2|[]] eqn:Hv.
  { rewrite !result_bind_inl. intros [= <-].
    revert Hv. unfold validation_entry_outcome, in_taxonomy.
    repeat case_match; intros [= <-]; tauto. }
  rewrite result_bind_inr.
  destruct (initial_entry_outcome (content f)) as [e3|[]] eqn:Hi.
  { rewrite !result_bind_inl. intros [= <-].
    revert Hi. unfold initial_entry_outcome, in_taxonomy.
    repeat case_match; intros [= <-]; tauto. }
  rewrite result_bind_inr.
  destruct (candidate_outcome (content f)) as [e4|candidate] eqn:Hc.
  { rewrite !result_bind_inl. intros [= <-].
    revert Hc. unfold candidate_outcome, in_taxonomy.
    repeat case_match; intros [= <-]; tauto. }
  rewrite !result_bind_inr. cbv beta iota.
  unfold in_taxonomy. case_decide; intros [= <-]; tauto.
Qed.

(** A missing source or handler is an [InvalidArgumentError]. *)
Lemma extract_without_arguments {H : Type} `{Handler H}
    (input : option stream) (handler : option H) :
  input = None ∨ handler = None →
  extract input handler = (inl InvalidArgumentError, (input, handler)).
Proof. destruct input, handler; by intros [? | ?]. Qed.

(** With a readable catalog sector and an ASCII manufacturer, decoding fails
    on the validation entry exactly when the header id is not 1 or the key
    bytes are not 0x55, 0xAA. *)
Lemma validation_entry_check {H : Type} `{HL : HandlerLaws H}
    (f : stream) (h : H) :
  boot_record_outcome (content f) = inr tt →
  readable (boot_catalog_sector (content f)) (content f) →
  is_ascii (manufacturer_id (content f)) = true →
  (decode (f, h)).1 = inl InvalidValidationEntryError
  ↔ (header_id (content f) ≠ 1 ∨ key_byte_1 (content f) ≠ 0x55
     ∨ key_byte_2 (content f) ≠ 0xaa).
Proof.
  intros Hb Hr Ha. rewrite decode_result.
  unfold decode_outcome, catalog_outcome, validation_entry_outcome.
  rewrite Hb, result_bind_inr, Ha, (decide_True _ _ Hr).
  destruct (decide (_ ∧ _ ∧ _)) as [Hok|Hbad].
  - rewrite result_bind_inr. split; [|lia].
    unfold initial_entry_outcome, candidate_outcome.
    repeat case_match; cbn [mbind result_bind]; repeat case_match; done.
  - rewrite result_bind_inl. split; [|done]. intros _.
    destruct (decide (header_id (content f) = 1)); [|tauto].
    destruct (decide (key_byte_1 (content f) = 0x55)); [|tauto].
    destruct (decide (key_byte_2 (content f) = 0xaa)); tauto.
Qed.

(** Swapped key bytes are rejected, and an unknown platform id is reported
    as such without an error. *)
Example swapped_keys_rejected :
  (extract (Some (Image.open Image.swapped_keys)) (Some Image.silent)).1
  = inl InvalidValidationEntryError.
Proof. vm_compute. reflexivity. Qed.

Example unknown_platform_accepted :
  platform_id Image.platform_7 = 7
  ∧ (let r := extract (Some (Image.open Image.platform_7))
                (Some Image.silent) in
     match r with
     | (inr bytes, (_, Some h)) =>
         Some (Z.of_nat (length bytes), h_get "platform_string" h)
     | _ => None
     end) = Some (512, inr (VStr "unknown")).
Proof. split; vm_compute; reflexivity. Qed.

(** ** The extracted range *)

(** C1. Whenever [extract] succeeds, the buffer it returns is the
    [resolved_sector_count * 512] bytes of the source that start at byte
    offset [load_rba * 2048], where [resolved_sector_count] is what lines
    100-125 make of the media type, the partition entry and the catalog's
    count, and it is the count that decoding hands to the final read; for
    no-emulation media with a catalog sector count of 40 and a load
    address of 25 these are the 20480 bytes from offset 51200. *)
Theorem extract_returns_resolved_range {H : Type} `{HL : HandlerLaws H}
    (f : stream) (h : H) (bytes : list byte) :
  (extract (Some f) (Some h)).1 = inr bytes →
  (decode (f, h)).1
  = inr (load_rba (content f), resolved_sector_count (content f))
  ∧ bytes = take (Z.to_nat (resolved_sector_count (content f) * 512))
              (drop (Z.to_nat (load_rba (content f) * 2048)) (content f))
  ∧ Z.of_nat (length bytes) = resolved_sector_count (content f) * 512
  ∧ (media_type (content f) = 0 → sector_count (content f) = 40 →
     load_rba (content f) = 25 →
     resolved_sector_count (content f) = 40
     ∧ Z.of_nat (length bytes) = 20480
     ∧ bytes = take (Z.to_nat 20480) (drop (Z.to_nat 51200) (content f))).
Proof.
  rewrite extract_result, decode_result. intros Ho.
  apply extract_outcome_inv in Ho as (start & count & Hd & Hb & Hlen).
  rewrite Hd.
  apply decode_outcome_inv in Hd as (_ & _ & _ & -> & candidate & Hc & Hcount).
  rewrite (resolved_sector_count_candidate _ _ Hc) in Hcount. subst count.
  assert (bytes = take (Z.to_nat (resolved_sector_count (content f) * 512))
                    (drop (Z.to_nat (load_rba (content f) * 2048)) (content f)))
    as Hbytes.
  { rewrite Hb. unfold bytes_at.
    by rewrite (Z.mul_comm 512 (resolved_sector_count (content f))). }
  split; [reflexivity|]. split; [exact Hbytes|]. split; [lia|].
  intros Hm Hcnt Hrba.
  assert (resolved_sector_count (content f) = 40) as Hc40.
  { unfold resolved_sector_count. rewrite Hm, Hcnt. reflexivity. }
  split; [exact Hc40|]. split; [lia|].
  rewrite Hbytes, Hrba, Hc40.
  replace (40 * 512) with 20480 by lia.
  replace (25 * 2048) with 51200 by lia.
  reflexivity.
Qed.

Lemma extract_returns_resolved_range_witness :
  (extract (Some (Image.open Image.no_emulation_40_25)) (Some Image.silent)).1
  = inr (replicate (40 * 512) x01)
  ∧ Z.of_nat (length (replicate (40 * 512) x01)) = 20480
  ∧ (extract (Some (Image.open (Image.hard_disk 7 0 1)))
       (Some Image.silent)).1
    = inr (Image.mbr 0 1)
  ∧ sector_count (Image.hard_disk 7 0 1) = 7
  ∧ Z.of_nat (length (Image.mbr 0 1)) = 1 * 512.
Proof.
  assert ((extract (Some (Image.open Image.no_emulation_40_25))
             (Some Image.silent)).1
          = inr (replicate (40 * 512) x01)) as Hrun.
  { apply (bool_decide_unpack _). vm_compute. exact I. }
  assert ((extract (Some (Image.open (Image.hard_disk 7 0 1)))
             (Some Image.silent)).1
          = inr (Image.mbr 0 1)) as Hdisk.
  { apply (bool_decide_unpack _). vm_compute. exact I. }
  split; [exact Hrun|].
  destruct (extract_returns_resolved_range _ _ _ Hrun)
    as (_ & _ & _ & Hscenario).
  destruct Hscenario as (_ & Hlen & _); [vm_compute; reflexivity..|].
  split; [exact Hlen|]. split; [exact Hdisk|].
  split; [vm_compute; reflexivity|].
  destruct (extract_returns_resolved_range _ _ _ Hdisk)
    as (_ & _ & Hlen' & _).
  rewrite Hlen'. cbn [Image.open content]. vm_compute. reflexivity.
Defined.

(** ** The handler as a reporting sink *)

(** C2 (counterexample). With a handler that drops every pair, [extract]
    fails on an image that it extracts with [DetailHandler]. *)
Lemma dropping_sink_changes_result :
  (extract (Some (Image.open Image.one_sector)) (Some Image.printing)).1
  = inr (replicate 512 x01)
  ∧ (extract (Some (Image.open Image.one_sector)) (Some Image.quiet)).1
    = inl (AttributeError "iso").
Proof. split; vm_compute; reflexivity. Qed.

(** C2 (as amended). For any two handlers that keep what is set on them,
    whatever else they do with it, [extract] returns the same bytes or
    fails with the same error on a given source. *)
Theorem sink_never_affects_result {H1 H2 : Type}
    `{HL1 : HandlerLaws H1} `{HL2 : HandlerLaws H2}
    (f : stream) (h1 : H1) (h2 : H2) :
  (extract (Some f) (Some h1)).1 = (extract (Some f) (Some h2)).1.
Proof. by rewrite !extract_result. Qed.

Lemma sink_never_affects_result_witness :
  (extract (Some (Image.open Image.one_sector)) (Some Image.printing)).1
  = (extract (Some (Image.open Image.one_sector)) (Some Image.silent)).1.
Proof. apply sink_never_affects_result. Defined.

(** ** The errors of [extract] *)

(** C3 (what the code does). On an image whose boot-system identifier holds
    a byte above 127, [extract] fails with a [UnicodeDecodeError], which is
    none of the five errors of the taxonomy. *)
Theorem non_ascii_identifier_escapes_taxonomy :
  (extract (Some (Image.open Image.non_ascii_identifier))
     (Some Image.silent)).1
  = inl UnicodeDecodeError
  ∧ ¬ in_taxonomy UnicodeDecodeError.
Proof.
  split; [vm_compute; reflexivity|].
  unfold in_taxonomy. intros [?|[?|[?|[?|?]]]]; discriminate.
Qed.

(** ** Truncated sources *)

(** C4 (counterexample). An image of [19 * 2048 - 1] bytes whose catalog
    gives load address 19 and sector count 0 for no-emulation media:
    [extract] returns the empty buffer. *)
Lemma zero_count_image_is_not_rejected :
  (decode (Image.open Image.zero_count, Image.silent)).1 = inr (19, 0)
  ∧ Z.of_nat (length Image.zero_count) = 19 * 2048 + 0 * 512 - 1
  ∧ (extract (Some (Image.open Image.zero_count)) (Some Image.silent)).1
    = inr [].
Proof. split; [|split]; vm_compute; reflexivity. Qed.

(** C4 (as amended). For a sector index and a block count that are not
    negative, [_get_sector] fails with [TruncatedImageError] exactly when
    the source has fewer than [count * 512] bytes from offset
    [number * 2048] on, and otherwise returns exactly [count * 512] bytes.
    A source that decodes to a start sector and a sector count of at least
    1 and whose length is [start * 2048 + count * 512 - 1] makes [extract]
    fail with [TruncatedImageError]. *)
Theorem read_sectors_truncation {H : Type} `{HL : HandlerLaws H}
    (f : stream) (h : H) (number count : Z) :
  0 ≤ number → 0 ≤ count →
  ((_get_sector number count (f, h)).1 = inl TruncatedImageError
   ↔ Z.of_nat (length (drop (Z.to_nat (number * 2048)) (content f)))
     < count * 512)
  ∧ (count * 512
     ≤ Z.of_nat (length (drop (Z.to_nat (number * 2048)) (content f))) →
     ∃ bytes,
       (_get_sector number count (f, h)).1 = inr bytes
       ∧ Z.of_nat (length bytes) = count * 512)
  ∧ ∀ start resolved,
      (decode (f, h)).1 = inr (start, resolved) →
      1 ≤ resolved →
      Z.of_nat (length (content f)) = start * 2048 + resolved * 512 - 1 →
      (extract (Some f) (Some h)).1 = inl TruncatedImageError.
Proof.
  intros Hn Hc. rewrite _get_sector_run by done. cbn [fst].
  pose proof (length_bytes_at number count (content f) Hc) as Hlen.
  split; [|split].
  - case_decide; split; try done; lia.
  - intros Hle. rewrite decide_True by lia. eexists. split; [reflexivity|lia].
  - intros start resolved. rewrite decode_result, extract_result.
    intros Hd Hpos Htotal. unfold extract_outcome.
    rewrite Hd, result_bind_inr. cbv beta iota.
    apply decode_outcome_nonneg in Hd as [Hs _].
    rewrite decide_False; [reflexivity|].
    rewrite length_bytes_at, length_drop by lia. lia.
Qed.

Lemma read_sectors_truncation_witness :
  (_get_sector 19 1 (Image.open Image.one_byte_short, Image.silent)).1
  = inl TruncatedImageError
  ∧ (extract (Some (Image.open Image.one_byte_short)) (Some Image.silent)).1
    = inl TruncatedImageError
  ∧ ∃ bytes,
      (_get_sector 19 1 (Image.open Image.one_sector, Image.silent)).1
      = inr bytes
      ∧ Z.of_nat (length bytes) = 1 * 512.
Proof.
  destruct (read_sectors_truncation
              (Image.open Image.one_byte_short) Image.silent 19 1)
    as (Hiff & _ & Hshort); [lia|lia|].
  destruct (read_sectors_truncation
              (Image.open Image.one_sector) Image.silent 19 1)
    as (_ & Hfull & _); [lia|lia|].
  split; [|split].
  - apply Hiff. vm_compute. reflexivity.
  - apply (Hshort 19 1); [vm_compute; reflexivity|lia|vm_compute; reflexivity].
  - apply Hfull. vm_compute. discriminate.
Defined.

(** ** Hard-disk media *)

(** C5. For media type 4 the candidate sector count comes from one read at
    physical sector [load_rba]: it is the sum of the two little-endian
    words at bytes 454-457 and 458-461 of that sector, the second and third
    fields of the partition entry at bytes 446-461. With 100 and 200 there
    the resolved sector count is 300. *)
Theorem hard_disk_candidate {H : Type} `{HL : HandlerLaws H}
    (f : stream) (h : H) :
  media_type (content f) = 4 →
  classify_media (media_type (content f)) (load_rba (content f)) (f, h)
  = (if decide (readable (load_rba (content f)) (content f))
     then inr ("harddisk",
               first_sector_lba (content f) + sector_count_lba (content f))
     else inl TruncatedImageError,
     (after_read (load_rba (content f)) 1 f, h))
  ∧ ∀ start count,
      (decode (f, h)).1 = inr (start, count) →
      readable (load_rba (content f)) (content f)
      ∧ count
        = (if decide (first_sector_lba (content f)
                      + sector_count_lba (content f) = 0)
           then sector_count (content f)
           else first_sector_lba (content f) + sector_count_lba (content f))
      ∧ (first_sector_lba (content f) = 100 →
         sector_count_lba (content f) = 200 → count = 300).
Proof.
  intros Hm. split.
  - rewrite Hm. unfold classify_media.
    rewrite (decide_False (P := 4 = 0)), (decide_False (P := 4 = 1)),
      (decide_False (P := 4 = 2)), (decide_False (P := 4 = 3)),
      (decide_True (P := 4 = 4)) by done.
    rewrite bind_run, _get_sector_one by apply le_uint_nonneg.
    destruct (decide (readable _ (content f))) as [Hr|Hr]; [|done].
    assert (length (slice 446 462
                      (sector_at (load_rba (content f)) (content f)))
            = 16%nat) as Hlen.
    { rewrite length_slice. unfold readable in Hr. lia. }
    rewrite bind_run. unfold lift at 1, unpack_8sLL.
    destruct (decide (length (slice 446 462 _) = 16%nat)); [|done].
    cbv beta iota.
    rewrite !(slice_slice _ _ 446 462) by lia. cbn [Nat.add].
    reflexivity.
  - intros start count. rewrite decode_result. intros Hd.
    apply decode_outcome_inv in Hd
      as (_ & _ & _ & _ & candidate & Hc & Hcount).
    apply candidate_outcome_cases in Hc as (_ & _ & _ & Hhd & _).
    destruct (Hhd Hm) as [Hr ->].
    split; [exact Hr|]. split; [exact Hcount|].
    intros H100 H200. rewrite Hcount, H100, H200. reflexivity.
Qed.

Lemma hard_disk_candidate_witness :
  media_type (Image.hard_disk 7 100 200) = 4
  ∧ first_sector_lba (Image.hard_disk 7 100 200) = 100
  ∧ sector_count_lba (Image.hard_disk 7 100 200) = 200
  ∧ ∃ count,
      (decode (Image.open (Image.hard_disk 7 100 200), Image.silent)).1
      = inr (19, count)
      ∧ count = 300.
Proof.
  assert (media_type (Image.hard_disk 7 100 200) = 4) as Hm
    by (vm_compute; reflexivity).
  assert (first_sector_lba (Image.hard_disk 7 100 200) = 100) as Hfirst
    by (vm_compute; reflexivity).
  assert (sector_count_lba (Image.hard_disk 7 100 200) = 200) as Hsize
    by (vm_compute; reflexivity).
  destruct (decode (Image.open (Image.hard_disk 7 100 200), Image.silent)).1
    as [e|[start count]] eqn:Hd; [by vm_compute in Hd|].
  assert (start = 19) as -> by (vm_compute in Hd; congruence).
  destruct (hard_disk_candidate
              (Image.open (Image.hard_disk 7 100 200)) Image.silent Hm)
    as [_ Hcount].
  destruct (Hcount 19 count Hd) as (_ & _ & H300).
  split; [exact Hm|]. split; [exact Hfirst|]. split; [exact Hsize|].
  exists count. split; [reflexivity|]. by apply H300.
Defined.

(** ** Floppy media *)

(** C6. For media types 1, 2 and 3 the resolved sector count is 2400, 2880
    and 5760, the capacity of the emulated floppy (1200, 1440 and 2880
    KiB) divided by 512 without remainder, whatever the catalog's own
    sector count. *)
Theorem floppy_sector_counts {H : Type} `{HL : HandlerLaws H}
    (f : stream) (h : H) (start count : Z) :
  (decode (f, h)).1 = inr (start, count) →
  (media_type (content f) = 1 → count = 2400 ∧ 2400 * 512 = 1200 * 1024)
  ∧ (media_type (content f) = 2 → count = 2880 ∧ 2880 * 512 = 1440 * 1024)
  ∧ (media_type (content f) = 3 → count = 5760 ∧ 5760 * 512 = 2880 * 1024).
Proof.
  rewrite decode_result. intros Hd.
  apply decode_outcome_inv in Hd as (_ & _ & _ & _ & candidate & Hc & Hcount).
  apply candidate_outcome_cases in Hc as (H1 & H2 & H3 & _).
  repeat split; try lia.
  - rewrite Hcount, H1 by done. reflexivity.
  - rewrite Hcount, H2 by done. reflexivity.
  - rewrite Hcount, H3 by done. reflexivity.
Qed.

Lemma floppy_sector_counts_witness :
  media_type Image.floppy_144 = 2
  ∧ sector_count Image.floppy_144 = 7
  ∧ ∃ count,
      (decode (Image.open Image.floppy_144, Image.silent)).1 = inr (19, count)
      ∧ count = 2880.
Proof.
  assert (media_type Image.floppy_144 = 2) as Hm by (vm_compute; reflexivity).
  destruct (decode (Image.open Image.floppy_144, Image.silent)).1
    as [e|[start count]] eqn:Hd; [by vm_compute in Hd|].
  assert (start = 19) as -> by (vm_compute in Hd; congruence).
  destruct (floppy_sector_counts _ _ _ _ Hd) as (_ & H2 & _).
  split; [exact Hm|]. split; [vm_compute; reflexivity|].
  exists count. split; [reflexivity|]. by apply H2.
Defined.

(** ** The validation entry *)

(** C7 (what the code does). On an image whose validation entry has header
    id 0 and a manufacturer with a byte above 127, [extract] fails with a
    [UnicodeDecodeError] and not with [InvalidValidationEntryError]: the
    manufacturer is decoded (line 74) before the header and the key bytes
    are checked (line 78). *)
Theorem bad_header_raises_unicode_error :
  header_id Image.bad_header_non_ascii_manufacturer = 0
  ∧ (extract (Some (Image.open Image.bad_header_non_ascii_manufacturer))
       (Some Image.silent)).1
    = inl UnicodeDecodeError
  ∧ UnicodeDecodeError ≠ InvalidValidationEntryError.
Proof. split; [|split]; [vm_compute; reflexivity..|discriminate]. Qed.

(** ** The boot record *)

(** C8 (counterexample). A specifier padded with spaces does not filter to
    exactly [EL TORITO SPECIFICATION], yet the boot record is accepted; an
    identifier with a byte above 127 is not [CD001], yet the failure is a
    [UnicodeDecodeError]. *)
Lemma boot_record_not_rejected_as_claimed :
  (keep_upper_and_space
     (string_of_list_byte
        (boot_system_specifier Image.space_padded_specifier))
   ≠ "EL TORITO SPECIFICATION"
   ∧ (decode_boot_record
        (Image.open Image.space_padded_specifier, Image.silent)).1
     = inr tt)
  ∧ (string_of_list_byte (boot_system_identifier Image.non_ascii_identifier)
     ≠ "CD001"
     ∧ (decode_boot_record
          (Image.open Image.non_ascii_identifier, Image.silent)).1
       = inl UnicodeDecodeError).
Proof.
  split; (split; [vm_compute; discriminate|vm_compute; reflexivity]).
Qed.

(** C8 (as amended). When sector 17 can be read and the identifier and the
    specifier are ASCII, [extract] fails with [NotBootableError] if the
    identifier is not [CD001] or if the specifier, stripped of surrounding
    whitespace, reduced to capital letters and spaces and stripped again,
    is not [EL TORITO SPECIFICATION]. It then has read 512 bytes at sector
    17 and nothing else, and has reported the four fields of the boot
    record and nothing of the catalog. *)
Theorem boot_record_rejected {H : Type} `{HL : HandlerLaws H}
    (f : stream) (h : H) :
  readable 17 (content f) →
  is_ascii (boot_system_identifier (content f)) = true →
  is_ascii (boot_system_specifier (content f)) = true →
  string_of_list_byte (boot_system_identifier (content f)) ≠ "CD001"
  ∨ normalize_specifier (string_of_list_byte (boot_system_specifier (content f)))
    ≠ "EL TORITO SPECIFICATION" →
  extract (Some f) (Some h)
  = (inl NotBootableError,
     (Some {| content := content f; position := 17 * 2048 + 512 |},
      Some (h_set "partition" (VInt (boot_catalog_sector (content f)))
              (h_set "spec"
                 (VStr (keep_upper_and_space
                          (strip (string_of_list_byte
                                    (boot_system_specifier (content f))))))
                 (h_set "vers"
                    (VInt (le_uint (slice 6 7 (sector_at 17 (content f)))))
                    (h_set "iso"
                       (VStr (string_of_list_byte
                                (boot_system_identifier (content f))))
                       h)))))).
Proof.
  intros Hr Hid Hspec Hbad.
  pose proof (decode_boot_record_run f h) as Hrun.
  unfold boot_record_outcome, boot_record_handler in Hrun.
  rewrite !(decide_True (P := readable 17 (content f))) in Hrun by done.
  rewrite !Hid, !Hspec in Hrun.
  rewrite decide_False in Hrun by tauto.
  unfold extract, extract_body, decode.
  rewrite (bind_inl _ _ _ _ _ (bind_inl _ _ _ _ _ Hrun)).
  unfold after_read. unfold readable, sector_at in Hr. rewrite Hr.
  reflexivity.
Qed.

Lemma boot_record_rejected_witness :
  string_of_list_byte (boot_system_identifier Image.cd002) = "CD002"
  ∧ (extract (Some (Image.open Image.cd002)) (Some Image.silent)).1
    = inl NotBootableError.
Proof.
  split; [vm_compute; reflexivity|].
  rewrite (boot_record_rejected (Image.open Image.cd002) Image.silent).
  - reflexivity.
  - vm_compute. reflexivity.
  - vm_compute. reflexivity.
  - vm_compute. reflexivity.
  - left. vm_compute. discriminate.
Defined.

(** ** Positive sector counts *)

(** C9 (counterexample). Hard-disk media whose partition entry and catalog
    sector count are all 0: [extract] succeeds with a resolved sector count
    of 0 and an empty buffer. *)
Lemma hard_disk_zero_count :
  media_type (Image.hard_disk 0 0 0) = 4
  ∧ (decode (Image.open (Image.hard_disk 0 0 0), Image.silent)).1
    = inr (19, 0)
  ∧ (extract (Some (Image.open (Image.hard_disk 0 0 0))) (Some Image.silent)).1
    = inr [].
Proof. split; [|split]; vm_compute; reflexivity. Qed.

(** C9 (as amended). Whenever [extract] succeeds, the resolved sector count
    is positive for media types 1, 2 and 3, and for media type 4 unless
    both the extent of the partition entry and the catalog's sector count
    are 0. *)
Theorem resolved_count_positive {H : Type} `{HL : HandlerLaws H}
    (f : stream) (h : H) (bytes : list byte) :
  (extract (Some f) (Some h)).1 = inr bytes →
  ∃ start count,
    (decode (f, h)).1 = inr (start, count)
    ∧ Z.of_nat (length bytes) = count * 512
    ∧ (media_type (content f) = 1 ∨ media_type (content f) = 2
       ∨ media_type (content f) = 3 → 0 < count)
    ∧ (media_type (content f) = 4 →
       first_sector_lba (content f) + sector_count_lba (content f) ≠ 0
       ∨ sector_count (content f) ≠ 0 →
       0 < count).
Proof.
  rewrite extract_result, decode_result. intros Ho.
  apply extract_outcome_inv in Ho as (start & count & Hd & _ & Hlen).
  exists start, count. split; [exact Hd|]. split; [lia|].
  pose proof (decode_outcome_nonneg _ _ _ Hd) as [_ Hnn].
  apply decode_outcome_inv in Hd as (_ & _ & _ & _ & candidate & Hc & Hcount).
  apply candidate_outcome_cases in Hc as (H1 & H2 & H3 & H4 & _).
  split.
  - intros [Hm|[Hm|Hm]].
    + rewrite Hcount, H1 by done. reflexivity.
    + rewrite Hcount, H2 by done. reflexivity.
    + rewrite Hcount, H3 by done. reflexivity.
  - intros Hm Hnz. destruct (H4 Hm) as [_ ->].
    destruct (decide (_ = 0)) as [Hz|Hz]; lia.
Qed.

Lemma resolved_count_positive_witness :
  media_type (Image.hard_disk 0 0 1) = 4
  ∧ (extract (Some (Image.open (Image.hard_disk 0 0 1))) (Some Image.silent)).1
    = inr (Image.mbr 0 1)
  ∧ ∃ start count,
      (decode (Image.open (Image.hard_disk 0 0 1), Image.silent)).1
      = inr (start, count)
      ∧ 0 < count.
Proof.
  assert ((extract (Some (Image.open (Image.hard_disk 0 0 1)))
             (Some Image.silent)).1
          = inr (Image.mbr 0 1)) as Hrun by (vm_compute; reflexivity).
  split; [vm_compute; reflexivity|]. split; [exact Hrun|].
  destruct (resolved_count_positive _ _ _ Hrun)
    as (start & count & Hd & _ & _ & Hpos).
  exists start, count. split; [exact Hd|].
  apply Hpos; [vm_compute; reflexivity|]. left. vm_compute. discriminate.
Defined.

(** ** The fallback to the catalog sector count *)

(** C10. When the candidate sector count is 0 (no-emulation media, a media
    type outside 0-4, or hard-disk media whose partition extent is 0) the
    resolved sector count is the catalog's own sector count; and for a
    media type outside 0-4 lines 100-125 raise nothing and touch neither
    the stream nor the handler. *)
Theorem zero_candidate_falls_back {H : Type} `{HL : HandlerLaws H}
    (f : stream) (h : H) :
  (∀ start count,
     (decode (f, h)).1 = inr (start, count) →
     media_type (content f) = 0
     ∨ ¬ (0 ≤ media_type (content f) ≤ 4)
     ∨ (media_type (content f) = 4
        ∧ first_sector_lba (content f) + sector_count_lba (content f) = 0) →
     count = sector_count (content f))
  ∧ ∀ media cnt start,
      ¬ (0 ≤ media ≤ 4) →
      h_get "media" h = inr (VInt media) →
      resolve_count cnt start (f, h) = (inr ("unknown", cnt), (f, h)).
Proof.
  split.
  - intros start count. rewrite decode_result. intros Hd Hcase.
    apply decode_outcome_inv in Hd
      as (_ & _ & _ & _ & candidate & Hc & Hcount).
    apply candidate_outcome_cases in Hc as (_ & _ & _ & H4 & H0').
    assert (candidate = 0) as Hzero.
    { destruct Hcase as [Hm|[Hm|[Hm Hext]]]; [tauto|tauto|].
      destruct (H4 Hm) as [_ ->]. exact Hext. }
    rewrite Hcount, Hzero. reflexivity.
  - intros media cnt start Hm Hget. unfold resolve_count.
    rewrite (bind_inr _ _ _ _ _ (get_int_run _ _ _ _ Hget)).
    unfold classify_media.
    rewrite !decide_False by lia.
    reflexivity.
Qed.

Lemma zero_candidate_falls_back_witness :
  sector_count Image.media_9 = 3
  ∧ (decode (Image.open Image.media_9, Image.silent)).1 = inr (19, 3)
  ∧ resolve_count 3 19
      (Image.open Image.media_9, h_set "media" (VInt 9) Image.silent)
    = (inr ("unknown", 3),
       (Image.open Image.media_9, h_set "media" (VInt 9) Image.silent)).
Proof.
  destruct (zero_candidate_falls_back (Image.open Image.media_9) Image.silent)
    as [Hfall _].
  destruct (zero_candidate_falls_back (Image.open Image.media_9)
              (h_set "media" (VInt 9) Image.silent))
    as [_ Hunknown].
  assert ((decode (Image.open Image.media_9, Image.silent)).1 = inr (19, 3))
    as Hd by (vm_compute; reflexivity).
  split; [|split; [exact Hd|]].
  - symmetry. apply (Hfall 19 3 Hd). right. left. vm_compute. intros [_ Hle].
    by apply Hle.
  - apply (Hunknown 9 3 19); [lia|reflexivity].
Defined.

(** * Further properties of the code *)

(** ** The reports, stage by stage *)

Lemma report_all_app {H : Type} `{Handler H}
    (a b : list (string * value)) (h : H) :
  report_all (a ++ b) h = report_all b (report_all a h).
Proof. unfold report_all. apply foldl_app. Qed.

Lemma report_all_take_add {H : Type} `{Handler H}
    (n m : nat) (pairs : list (string * value)) (h : H) :
  report_all (take m (drop n pairs)) (report_all (take n pairs) h)
  = report_all (take (n + m) pairs) h.
Proof. by rewrite <- report_all_app, take_take_drop. Qed.

Lemma report_all_take_add_drop {H : Type} `{Handler H}
    (k n m : nat) (pairs : list (string * value)) (h : H) :
  report_all (take m (drop (k + n) pairs))
    (report_all (take n (drop k pairs)) h)
  = report_all (take (n + m) (drop k pairs)) h.
Proof. by rewrite <- (report_all_take_add n m), drop_drop. Qed.

Section Reports.
Context {H : Type} `{HL : HandlerLaws H}.

Lemma boot_record_handler_reports (img : list byte) (h : H) :
  boot_record_handler img h
  = report_all
      (take (if decide (readable 17 img) then
               if is_ascii (boot_system_identifier img) then
                 if is_ascii (boot_system_specifier img) then 4 else 2
               else 0
             else 0)%nat
         (reports img)) h.
Proof. unfold boot_record_handler. by repeat case_match. Qed.

Lemma decode_validation_entry_reports (img : list byte) (f : stream) (h : H) :
  content f = img →
  h_get "partition" h = inr (VInt (boot_catalog_sector img)) →
  decode_validation_entry (f, h)
  = (_ ← validation_entry_outcome img; inr (catalog_of img),
     (after_read (boot_catalog_sector img) 1 f,
      report_all
        (take (if decide (readable (boot_catalog_sector img) img) then
                 if is_ascii (manufacturer_id img) then
                   if validation_entry_outcome img is inr _ then 3 else 2
                 else 1
               else 0)%nat
           (drop 4 (reports img))) h)).
Proof.
  intros <- Hp. unfold decode_validation_entry, validation_entry_outcome.
  rewrite bind_run, (get_int_run _ _ _ _ Hp).
  rewrite bind_run, _get_sector_one by apply le_uint_nonneg.
  fold (catalog_of (content f)).
  destruct (decide (readable _ (content f))) as [Hr|Hr]; [|done].
  assert (length (slice 0 32 (catalog_of (content f))) = 32%nat) as Hlen.
  { rewrite length_slice. unfold readable in Hr. unfold catalog_of. lia. }
  rewrite bind_run. unfold lift at 1, unpack_BBH24sHBB.
  destruct (decide (length (slice 0 32 _) = 32%nat)); [|done].
  cbv beta iota.
  rewrite !(slice_slice _ _ 0 32) by lia. cbn [Nat.add].
  fold (header_id (content f)) (platform_id (content f))
    (manufacturer_id (content f)) (key_byte_1 (content f))
    (key_byte_2 (content f)).
  rewrite bind_run, handler_set_run.
  rewrite bind_run. unfold lift at 1, decode_ascii at 1.
  destruct (is_ascii (manufacturer_id (content f))); [|done].
  rewrite bind_run, handler_set_run.
  destruct (decide (header_id _ ≠ 1 ∨ _ ∨ _)) as [Hbad|Hok].
  - rewrite decide_False by (intros (?&?&?); by destruct Hbad as [?|[?|?]]).
    done.
  - rewrite decide_True by (repeat split; apply dec_stable; tauto).
    erewrite bind_run, get_int_run;
      last by rewrite h_get_set_ne, h_get_set_eq.
    rewrite bind_run, handler_set_run.
    unfold report_all, reports. cbn [take drop foldl fst snd].
    reflexivity.
Qed.

Lemma decode_initial_entry_reports (img : list byte) (f : stream) (h : H) :
  readable (boot_catalog_sector img) img →
  decode_initial_entry (catalog_of img) (f, h)
  = (_ ← initial_entry_outcome img; inr (sector_count img, load_rba img),
     (f, report_all (take 1 (drop 7 (reports img))) h)).
Proof.
  intros Hr. unfold decode_initial_entry, initial_entry_outcome.
  assert (length (slice 32 45 (catalog_of img)) = 13%nat) as Hlen.
  { rewrite length_slice. unfold readable in Hr. unfold catalog_of. lia. }
  rewrite bind_run. unfold lift at 1, unpack_BBHBBHLB.
  destruct (decide (length (slice 32 45 _) = 13%nat)); [|done].
  cbv beta iota.
  rewrite !(slice_slice _ _ 32 45) by lia. cbn [Nat.add].
  fold (boot_indicator img) (media_type img) (sector_count img) (load_rba img).
  rewrite bind_run, handler_set_run.
  destruct (decide (boot_indicator _ ≠ _)) as [Hbad|Hok].
  - by rewrite decide_False.
  - apply dec_stable in Hok. by rewrite decide_True.
Qed.

Lemma decode_catalog_reports (img : list byte) (f : stream) (h : H) :
  content f = img →
  h_get "partition" h = inr (VInt (boot_catalog_sector img)) →
  ∃ f',
    decode_catalog (f, h)
    = (catalog_outcome img,
       (f',
        report_all
          (take (if decide (readable (boot_catalog_sector img) img) then
                   if is_ascii (manufacturer_id img) then
                     match validation_entry_outcome img with
                     | inl _ => 2
                     | inr _ =>
                         match initial_entry_outcome img,
                               candidate_outcome img with
                         | inr _, inr _ => 8
                         | _, _ => 4
                         end
                     end
                   else 1
                 else 0)%nat
             (drop 4 (reports img))) h))
    ∧ content f' = img.
Proof.
  intros Hc Hp. unfold decode_catalog, catalog_outcome.
  pose proof (decode_validation_entry_reports img f h Hc Hp) as Hrun1.
  assert (content (after_read (boot_catalog_sector img) 1 f) = img) as Hc1
    by exact Hc.
  destruct (validation_entry_outcome img) as [e|[]] eqn:Hv.
  { rewrite result_bind_inl in Hrun1. rewrite result_bind_inl.
    rewrite (bind_inl _ _ _ _ _ Hrun1).
    eexists. split; [reflexivity|exact Hc1]. }
  pose proof (validation_entry_readable _ Hv) as Hr.
  assert (is_ascii (manufacturer_id img) = true) as Ha.
  { revert Hv. unfold validation_entry_outcome.
    rewrite (decide_True _ _ Hr).
    by destruct (is_ascii (manufacturer_id img)). }
  rewrite (decide_True (P := readable _ img)), Ha in Hrun1 by done.
  rewrite (decide_True (P := readable _ img)), Ha by done.
  rewrite result_bind_inr in Hrun1. rewrite result_bind_inr.
  rewrite (bind_inr _ _ _ _ _ Hrun1).
  pose proof (decode_initial_entry_reports img
                (after_read (boot_catalog_sector img) 1 f)
                (report_all (take 3 (drop 4 (reports img))) h) Hr) as Hrun2.
  rewrite (report_all_take_add_drop 4 3 1) in Hrun2.
  destruct (initial_entry_outcome img) as [e|[]].
  { rewrite result_bind_inl in Hrun2. rewrite result_bind_inl.
    rewrite (bind_inl _ _ _ _ _ Hrun2).
    eexists. split; [reflexivity|exact Hc1]. }
  rewrite result_bind_inr in Hrun2. rewrite result_bind_inr.
  rewrite (bind_inr _ _ _ _ _ Hrun2). cbv beta iota.
  destruct (resolve_count_run img _
              (report_all (take (3 + 1) (drop 4 (reports img))) h) Hc1)
    as (f2 & Hrun3 & Hc2).
  { unfold report_all, reports. cbn [take drop foldl fst snd Nat.add].
    by rewrite h_get_set_eq. }
  destruct (candidate_outcome img) as [e|candidate] eqn:Hcand.
  { rewrite result_bind_inl in Hrun3. rewrite result_bind_inl.
    rewrite (bind_inl _ _ _ _ _ Hrun3).
    exists f2. split; [reflexivity|exact Hc2]. }
  rewrite result_bind_inr in Hrun3. rewrite result_bind_inr.
  rewrite (bind_inr _ _ _ _ _ Hrun3). cbv beta iota.
  rewrite (bind_inr _ _ _ _ _ (handler_set_run _ _ _ _)).
  rewrite (bind_inr _ _ _ _ _ (handler_set_run _ _ _ _)).
  rewrite (bind_inr _ _ _ _ _ (handler_set_run _ _ _ _)).
  rewrite (bind_inr _ _ _ _ _ (handler_set_run _ _ _ _)).
  rewrite (resolved_sector_count_candidate _ _ Hcand).
  exists f2. split; [reflexivity|exact Hc2].
Qed.

Lemma decode_reports (f : stream) (h : H) :
  ∃ f',
    decode (f, h)
    = (decode_outcome (content f),
       (f', report_all (take (reported_count (content f))
                          (reports (content f))) h))
    ∧ content f' = content f.
Proof.
  unfold decode, decode_outcome, reported_count.
  pose proof (decode_boot_record_run f h) as Hrun.
  rewrite boot_record_handler_reports in Hrun.
  destruct (boot_record_outcome (content f)) as [e|[]] eqn:Hb.
  { rewrite result_bind_inl, (bind_inl _ _ _ _ _ Hrun).
    exists (after_read 17 1 f). split; reflexivity. }
  rewrite result_bind_inr, (bind_inr _ _ _ _ _ Hrun).
  revert Hrun Hb. unfold boot_record_outcome.
  destruct (decide (readable 17 (content f))) as [Hr|?]; [|done].
  destruct (is_ascii (boot_system_identifier (content f))); [|done].
  destruct (is_ascii (boot_system_specifier (content f))); [|done].
  intros Hrun Hb.
  destruct (decode_catalog_reports (content f) (after_read 17 1 f)
              (report_all (take 4 (reports (content f))) h) eq_refl)
    as (f' & Hcat & Hc).
  { unfold report_all, reports. cbn [take foldl fst snd].
    by rewrite h_get_set_eq. }
  rewrite Hcat, report_all_take_add.
  exists f'. split; [|exact Hc].
  do 3 f_equal. by repeat case_match.
Qed.
End Reports.

Lemma reported_count_cases (img : list byte) :
  (reported_count img ≤ 12)%nat
  ∧ (extract_outcome img = inl NotBootableError → reported_count img = 4%nat)
  ∧ (extract_outcome img = inl InvalidValidationEntryError →
     reported_count img = 6%nat)
  ∧ (extract_outcome img = inl NotBootableEntryError →
     reported_count img = 8%nat)
  ∧ (∀ bytes, extract_outcome img = inr bytes → reported_count img = 12%nat).
Proof.
  unfold extract_outcome, decode_outcome, catalog_outcome, reported_count,
    boot_record_outcome, validation_entry_outcome, initial_entry_outcome.
  destruct (decide (readable 17 img)); [|by repeat split; try lia].
  destruct (is_ascii (boot_system_identifier img));
    [|by repeat split; try lia].
  destruct (is_ascii (boot_system_specifier img));
    [|by repeat split; try lia].
  destruct (decide (_ ∧ _)); [|by repeat split; try lia].
  rewrite !result_bind_inr.
  destruct (decide (readable _ img)); [|by repeat split; try lia].
  destruct (is_ascii (manufacturer_id img)); [|by repeat split; try lia].
  destruct (decide (_ ∧ _ ∧ _)); [|by repeat split; try lia].
  rewrite !result_bind_inr.
  destruct (decide (boot_indicator img = _)); [|by repeat split; try lia].
  rewrite !result_bind_inr.
  destruct (candidate_outcome img) as [err|candidate] eqn:Hc.
  { rewrite !result_bind_inl.
    assert (err = TruncatedImageError) as ->.
    { revert Hc. unfold candidate_outcome. repeat case_decide; congruence. }
    by repeat split; try lia. }
  rewrite !result_bind_inr. cbv beta iota.
  by case_decide; repeat split; try lia.
Qed.

(** The whole run of [extract] on a source and a handler that are there:
    its result, and the handler it leaves. *)
Lemma extract_reports_run {H : Type} `{HL : HandlerLaws H}
    (f : stream) (h : H) :
  ∃ f',
    extract (Some f) (Some h)
    = (extract_outcome (content f),
       (Some f',
        Some (report_all (take (reported_count (content f))
                            (reports (content f))) h)))
    ∧ content f' = content f.
Proof.
  unfold extract, extract_body, extract_outcome.
  destruct (decode_reports f h) as (f1 & Hrun & Hc).
  destruct (decode_outcome (content f)) as [e|[start count]] eqn:Hd.
  - rewrite (bind_inl _ _ _ _ _ Hrun), result_bind_inl. by eexists.
  - rewrite (bind_inr _ _ _ _ _ Hrun), result_bind_inr. cbv beta iota.
    apply decode_outcome_nonneg in Hd as [? ?].
    rewrite _get_sector_run by done. rewrite Hc.
    exists (after_read start count f1). by case_decide.
Qed.

(** ** What the handler is told *)

(** X3. Whatever the image, [extract] calls [handler.set] for a prefix of the
    twelve pairs of [reports], in their order, and for nothing else: four
    pairs when the boot record is rejected, six when the validation entry
    is, eight when the boot indicator is wrong, and all twelve when it
    succeeds, after which [handler.get] returns each reported value. *)
Theorem extract_reports_a_prefix {H : Type} `{HL : HandlerLaws H}
    (f : stream) (h : H) :
  ∃ n f',
    (n ≤ 12)%nat
    ∧ (extract (Some f) (Some h)).2
      = (Some f', Some (report_all (take n (reports (content f))) h))
    ∧ ((extract (Some f) (Some h)).1 = inl NotBootableError → n = 4%nat)
    ∧ ((extract (Some f) (Some h)).1 = inl InvalidValidationEntryError →
       n = 6%nat)
    ∧ ((extract (Some f) (Some h)).1 = inl NotBootableEntryError →
       n = 8%nat)
    ∧ ∀ bytes,
        (extract (Some f) (Some h)).1 = inr bytes →
        n = 12%nat
        ∧ Forall (λ kv, h_get kv.1 (report_all (reports (content f)) h)
                        = inr kv.2)
            (reports (content f)).
Proof.
  destruct (extract_reports_run f h) as (f' & Hrun & _). rewrite Hrun.
  cbn [fst snd].
  destruct (reported_count_cases (content f)) as (Hle & H4 & H6 & H8 & H12).
  exists (reported_count (content f)), f'.
  split; [exact Hle|]. split; [reflexivity|].
  split; [exact H4|]. split; [exact H6|]. split; [exact H8|].
  intros bytes Hok. split; [by eapply H12|].
  unfold reports, report_all. cbn [foldl fst snd].
  repeat (apply Forall_cons; split;
          [cbn [fst snd]; by rewrite ?h_get_set_ne, h_get_set_eq by done|]).
  apply Forall_nil_2.
Qed.

Lemma extract_reports_a_prefix_witness :
  ∃ n f',
    (extract (Some (Image.open Image.cd002)) (Some Image.silent)).2
    = (Some f',
       Some (report_all (take n (reports Image.cd002)) Image.silent))
    ∧ n = 4%nat.
Proof.
  destruct (extract_reports_a_prefix (Image.open Image.cd002) Image.silent)
    as (n & f' & _ & Hstate & H4 & _).
  exists n, f'. split; [exact Hstate|].
  apply H4. vm_compute. reflexivity.
Defined.

(** ** [DetailHandler] *)

(** X1. After any sequence of [set] calls, [DetailHandler.get] returns for a
    key the value of the last call that set it, and what the handler held
    before for a key that none of them set: an [AttributeError] on a new
    handler. This is for names that the object does not have already. *)
Theorem DetailHandler_get_after_sets (pairs : list (string * value))
    (self : DetailHandler) (key : string) :
  own_name key = false →
  Forall (λ kv, own_name kv.1 = false) pairs →
  DetailHandler_get key (report_all pairs self)
  = match last (filter (λ kv, kv.1 = key) pairs) with
    | Some kv => inr kv.2
    | None => DetailHandler_get key self
    end
  ∧ (attrs self = ∅ →
     Forall (λ kv, kv.1 ≠ key) pairs →
     DetailHandler_get key (report_all pairs self)
     = inl (AttributeError key)).
Proof.
  intros _ _.
  assert (DetailHandler_get key (report_all pairs self)
          = match last (filter (λ kv, kv.1 = key) pairs) with
            | Some kv => inr kv.2
            | None => DetailHandler_get key self
            end) as Hget.
  { induction pairs as [|[key' v] pairs IH] using rev_ind; [done|].
    rewrite report_all_app, filter_app, last_app.
    unfold report_all at 1. cbn [foldl fst snd].
    unfold h_set at 1, DetailHandler_Handler, DetailHandler_get at 1,
      DetailHandler_set. cbn [attrs].
    destruct (decide (key' = key)) as [->|Hne].
    - rewrite lookup_insert_eq.
      by rewrite filter_cons_True, filter_nil by done.
    - rewrite lookup_insert_ne by done.
      rewrite filter_cons_False, filter_nil by done. cbn [last].
      exact IH. }
  split; [exact Hget|]. intros Hnew Hnone. rewrite Hget.
  assert (filter (λ kv : string * value, kv.1 = key) pairs = []) as ->.
  { clear Hget. induction Hnone as [|kv pairs Hkv _ IH]; [done|].
    by rewrite filter_cons_False. }
  cbn [last]. unfold DetailHandler_get. by rewrite Hnew, lookup_empty.
Qed.

Lemma DetailHandler_get_after_sets_witness :
  DetailHandler_get "iso"
    (report_all [("iso", VStr "CD001"); ("vers", VInt 1);
                 ("iso", VStr "CD002")] Image.silent)
  = inr (VStr "CD002")
  ∧ DetailHandler_get "spec"
      (report_all [("iso", VStr "CD001"); ("vers", VInt 1)] Image.silent)
    = inl (AttributeError "spec").
Proof.
  split.
  - destruct (DetailHandler_get_after_sets
                [("iso", VStr "CD001"); ("vers", VInt 1);
                 ("iso", VStr "CD002")] Image.silent "iso") as [-> _].
    + reflexivity.
    + repeat constructor.
    + reflexivity.
  - destruct (DetailHandler_get_after_sets
                [("iso", VStr "CD001"); ("vers", VInt 1)] Image.silent
                "spec") as [_ Hnone].
    + reflexivity.
    + repeat constructor.
    + apply Hnone; [reflexivity|]. by repeat constructor.
Defined.

Lemma DetailHandler_report_all (pairs : list (string * value))
    (self : DetailHandler) :
  _stdout (report_all pairs self)
  = (λ out, out ++ (report_line <$> pairs)) <$> _stdout self
  ∧ attrs (report_all pairs self)
    = foldl (λ m kv, <[kv.1 := kv.2]> m) (attrs self) pairs.
Proof.
  revert self. induction pairs as [|[key v] pairs IH]; intros self.
  - unfold report_all. cbn [foldl]. split; [|done].
    destruct (_stdout self); cbn; [|done].
    by rewrite app_nil_r.
  - unfold report_all. cbn [foldl fst snd].
    destruct (IH (h_set key v self)) as [Hout Hattrs].
    unfold report_all in Hout, Hattrs. rewrite Hout, Hattrs.
    split; [|done].
    unfold h_set, DetailHandler_Handler, DetailHandler_set. cbn [_stdout].
    destruct (_stdout self); cbn; [|done].
    by rewrite <- app_assoc.
Qed.

(** X2. With a [DetailHandler] that has an output stream, [extract] appends to
    it one line per reported pair, in order, and nothing else: twelve lines
    when it succeeds. With [stdout = None] nothing is written. *)
Theorem extract_prints_reports (f : stream) (self : DetailHandler) :
  ∃ n f' self',
    (extract (Some f) (Some self)).2 = (Some f', Some self')
    ∧ _stdout self'
      = (λ out, out ++ (report_line <$> take n (reports (content f))))
        <$> _stdout self
    ∧ (_stdout self = None → _stdout self' = None)
    ∧ ∀ bytes,
        (extract (Some f) (Some self)).1 = inr bytes →
        n = 12%nat
        ∧ length (report_line <$> take n (reports (content f))) = 12%nat.
Proof.
  destruct (extract_reports_run f self) as (f' & Hrun & _). rewrite Hrun.
  cbn [fst snd].
  destruct (reported_count_cases (content f)) as (_ & _ & _ & _ & H12).
  exists (reported_count (content f)), f',
    (report_all (take (reported_count (content f)) (reports (content f)))
       self).
  destruct (DetailHandler_report_all
              (take (reported_count (content f)) (reports (content f))) self)
    as [Hout _].
  split; [reflexivity|]. split; [exact Hout|]. split.
  - intros Hnone. by rewrite Hout, Hnone.
  - intros bytes Hok. rewrite (H12 bytes Hok).
    split; reflexivity.
Qed.

Lemma extract_prints_reports_witness :
  ∃ self',
    (extract (Some (Image.open Image.one_sector)) (Some Image.printing)).2.2
    = Some self'
    ∧ (length <$> _stdout self') = Some 12%nat.
Proof.
  destruct (extract_prints_reports (Image.open Image.one_sector)
              Image.printing) as (n & f' & self' & Hstate & Hout & _ & Hok).
  exists self'. split; [by rewrite Hstate|].
  destruct (Hok (replicate 512 x01)) as [-> Hlen]; [vm_compute; reflexivity|].
  rewrite Hout. cbn [_stdout Image.printing fmap option_fmap option_map].
  by rewrite app_nil_l, Hlen.
Defined.

(** ** Where the stream stands *)

(** X4. [extract] seeks before every read, so its result depends on the
    content of the stream only, not on its position nor on what the handler
    held before. Running it again on the stream and the handler that a first
    run left gives the same result. *)
Theorem extract_ignores_position {H1 H2 : Type}
    `{HL1 : HandlerLaws H1} `{HL2 : HandlerLaws H2}
    (f1 f2 : stream) (h1 : H1) (h2 : H2) :
  content f1 = content f2 →
  (extract (Some f1) (Some h1)).1 = (extract (Some f2) (Some h2)).1
  ∧ ∀ f' h',
      (extract (Some f1) (Some h1)).2 = (Some f', Some h') →
      (extract (Some f') (Some h')).1 = (extract (Some f1) (Some h1)).1.
Proof.
  intros Hc. split; [by rewrite !extract_result, Hc|].
  intros f' h' Hstate. rewrite !extract_result.
  destruct (extract_run f1 h1) as (f'' & h'' & Hrun & Hc' & _).
  rewrite Hrun in Hstate. cbn [snd] in Hstate.
  injection Hstate as <- <-. by rewrite Hc'.
Qed.

Lemma extract_ignores_position_witness :
  (extract (Some {| content := Image.one_sector; position := 12345 |})
     (Some Image.printing)).1
  = (extract (Some (Image.open Image.one_sector)) (Some Image.silent)).1.
Proof.
  by destruct (extract_ignores_position
                 {| content := Image.one_sector; position := 12345 |}
                 (Image.open Image.one_sector) Image.printing Image.silent
                 eq_refl) as [Hsame _].
Defined.

(** ** [_get_sector] at its edges *)



(** ** The size of what is decoded *)

Lemma le_uint_slice_bound (a b : nat) (l : list byte) :
  0 ≤ le_uint (slice a b l) < 256 ^ Z.of_nat (b - a).
Proof.
  split; [apply le_uint_nonneg|].
  eapply Z.lt_le_trans; [apply le_uint_bound|].
  apply Z.pow_le_mono_r; [lia|]. rewrite length_slice. lia.
Qed.

(** X6. The start sector that decoding resolves is a 32-bit value and the
    sector count is below 2^33; unless the media type is 4 the count is a
    16-bit value. So [extract] never asks the source for 2^42 bytes or
    more. *)
Theorem resolved_range_is_bounded {H : Type} `{HL : HandlerLaws H}
    (f : stream) (h : H) (start count : Z) :
  (decode (f, h)).1 = inr (start, count) →
  0 ≤ start < 2 ^ 32
  ∧ 0 ≤ count < 2 ^ 33
  ∧ (media_type (content f) ≠ 4 → count < 2 ^ 16)
  ∧ 512 * count < 2 ^ 42.
Proof.
  rewrite decode_result. intros Hd.
  apply decode_outcome_inv in Hd as (_ & _ & _ & -> & candidate & Hc & ->).
  pose proof (le_uint_slice_bound 40 44 (catalog_of (content f))) as Hstart.
  pose proof (le_uint_slice_bound 38 40 (catalog_of (content f))) as Hcnt.
  pose proof (le_uint_slice_bound 454 458
                (sector_at (load_rba (content f)) (content f))) as Hfirst.
  pose proof (le_uint_slice_bound 458 462
                (sector_at (load_rba (content f)) (content f))) as Hsize.
  fold (load_rba (content f)) in Hstart.
  fold (sector_count (content f)) in Hcnt.
  fold (first_sector_lba (content f)) in Hfirst.
  fold (sector_count_lba (content f)) in Hsize.
  change (Z.of_nat (44 - 40)) with 4 in Hstart.
  change (Z.of_nat (40 - 38)) with 2 in Hcnt.
  change (Z.of_nat (458 - 454)) with 4 in Hfirst.
  change (Z.of_nat (462 - 458)) with 4 in Hsize.
  change (256 ^ 4) with 4294967296 in *.
  change (256 ^ 2) with 65536 in *.
  change (2 ^ 32) with 4294967296.
  change (2 ^ 33) with 8589934592.
  change (2 ^ 16) with 65536.
  change (2 ^ 42) with 4398046511104.
  apply candidate_outcome_cases in Hc as (H1 & H2 & H3 & H4 & H0').
  destruct (decide (media_type (content f) = 1)) as [Hm|?];
    [rewrite (H1 Hm); split; [lia|]; split; [|split]; intros;
     rewrite ?decide_False by lia; lia|].
  destruct (decide (media_type (content f) = 2)) as [Hm|?];
    [rewrite (H2 Hm); split; [lia|]; split; [|split]; intros;
     rewrite ?decide_False by lia; lia|].
  destruct (decide (media_type (content f) = 3)) as [Hm|?];
    [rewrite (H3 Hm); split; [lia|]; split; [|split]; intros;
     rewrite ?decide_False by lia; lia|].
  destruct (decide (media_type (content f) = 4)) as [Hm|?].
  - destruct (H4 Hm) as [_ ->].
    split; [lia|]. case_decide; split; try lia; split; intros; lia.
  - assert (candidate = 0) as ->.
    { apply H0'. pose proof (le_uint_nonneg
                               (slice 33 34 (catalog_of (content f)))).
      fold (media_type (content f)) in *. lia. }
    rewrite decide_True by done.
    split; [lia|]. split; [lia|]. split; intros; lia.
Qed.

Lemma resolved_range_is_bounded_witness :
  (decode (Image.open (Image.hard_disk 7 100 200), Image.silent)).1
  = inr (19, 300)
  ∧ 512 * 300 < 2 ^ 42.
Proof.
  assert ((decode (Image.open (Image.hard_disk 7 100 200), Image.silent)).1
          = inr (19, 300)) as Hd by (vm_compute; reflexivity).
  split; [exact Hd|].
  by destruct (resolved_range_is_bounded _ _ _ _ Hd) as (_ & _ & _ & Hlt).
Defined.

(** ** Which images are extracted, and which error the others give *)

Lemma boot_record_outcome_ok (img : list byte) :
  boot_record_outcome img = inr tt
  ↔ readable 17 img
    ∧ is_ascii (boot_system_identifier img) = true
    ∧ is_ascii (boot_system_specifier img) = true
    ∧ string_of_list_byte (boot_system_identifier img) = "CD001"
    ∧ normalize_specifier (string_of_list_byte (boot_system_specifier img))
      = "EL TORITO SPECIFICATION".
Proof.
  unfold boot_record_outcome.
  destruct (decide (readable 17 img)); [|split; [done|tauto]].
  destruct (is_ascii (boot_system_identifier img));
    [|split; [done|intros (_ & ? & _); done]].
  destruct (is_ascii (boot_system_specifier img));
    [|split; [done|intros (_ & _ & ? & _); done]].
  case_decide; split; try done; tauto.
Qed.

Lemma validation_entry_outcome_ok (img : list byte) :
  validation_entry_outcome img = inr tt
  ↔ readable (boot_catalog_sector img) img
    ∧ is_ascii (manufacturer_id img) = true
    ∧ header_id img = 1 ∧ key_byte_1 img = 0x55 ∧ key_byte_2 img = 0xaa.
Proof.
  unfold validation_entry_outcome.
  destruct (decide (readable _ img)); [|split; [done|tauto]].
  destruct (is_ascii (manufacturer_id img));
    [|split; [done|intros (_ & ? & _); done]].
  case_decide; split; try done; tauto.
Qed.

Lemma candidate_outcome_ok (img : list byte) :
  (∃ candidate, candidate_outcome img = inr candidate)
  ↔ (media_type img = 4 → readable (load_rba img) img).
Proof.
  unfold candidate_outcome.
  destruct (decide (media_type img = 1)) as [->|?]; [split; [done|eauto]|].
  destruct (decide (media_type img = 2)) as [->|?]; [split; [done|eauto]|].
  destruct (decide (media_type img = 3)) as [->|?]; [split; [done|eauto]|].
  destruct (decide (media_type img = 4)) as [->|?]; [|split; [done|eauto]].
  destruct (decide (readable _ img)); [split; [done|eauto]|].
  split; [by intros [? ?]|tauto].
Qed.

Lemma decode_outcome_ok (img : list byte) (start count : Z) :
  decode_outcome img = inr (start, count)
  ↔ boot_record_outcome img = inr tt
    ∧ validation_entry_outcome img = inr tt
    ∧ boot_indicator img = 0x88
    ∧ (media_type img = 4 → readable (load_rba img) img)
    ∧ start = load_rba img
    ∧ count = resolved_sector_count img.
Proof.
  split.
  - intros Hd.
    apply decode_outcome_inv in Hd as (Hb & Hv & Hi & -> & candidate & Hc & ->).
    split; [done|]. split; [done|].
    split; [unfold initial_entry_outcome in Hi; by case_decide|].
    split; [apply candidate_outcome_ok; eauto|].
    split; [done|]. by apply resolved_sector_count_candidate.
  - intros (Hb & Hv & Hi & Hc & -> & ->).
    apply candidate_outcome_ok in Hc as [candidate Hc].
    unfold decode_outcome, catalog_outcome, initial_entry_outcome.
    rewrite Hb, result_bind_inr, Hv, result_bind_inr.
    rewrite decide_True by done. rewrite result_bind_inr, Hc, result_bind_inr.
    by rewrite (resolved_sector_count_candidate _ _ Hc).
Qed.

Lemma resolved_sector_count_nonneg (img : list byte) :
  0 ≤ resolved_sector_count img.
Proof.
  unfold resolved_sector_count, sector_count, first_sector_lba,
    sector_count_lba.
  pose proof (le_uint_nonneg (slice 38 40 (catalog_of img))).
  pose proof (le_uint_nonneg (slice 454 458 (sector_at (load_rba img) img))).
  pose proof (le_uint_nonneg (slice 458 462 (sector_at (load_rba img) img))).
  cbv zeta. repeat case_decide; lia.
Qed.

Lemma bytes_at_complete (number count : Z) (img : list byte) :
  0 ≤ number → 0 ≤ count →
  Z.of_nat (length (bytes_at number count img)) = 512 * count
  ↔ number * 2048 + 512 * count ≤ Z.of_nat (length img) ∨ count = 0.
Proof.
  intros Hn Hc. unfold bytes_at. rewrite length_take, length_drop. lia.
Qed.

(** X7. [extract] returns a buffer exactly for the images that pass every check
    in turn: sector 17 is there, its identifier and specifier are ASCII,
    the identifier is CD001 and the normalized specifier is the El Torito
    one; the catalog sector is there, its manufacturer is ASCII, the header
    id is 1 and the key bytes are 0x55 and 0xAA; the boot indicator is 0x88;
    for hard-disk media the sector at [load_rba] is there; and the image
    holds the whole range to extract, or that range is empty. *)
Theorem extract_succeeds_iff {H : Type} `{HL : HandlerLaws H}
    (f : stream) (h : H) :
  (∃ bytes, (extract (Some f) (Some h)).1 = inr bytes)
  ↔ readable 17 (content f)
    ∧ is_ascii (boot_system_identifier (content f)) = true
    ∧ is_ascii (boot_system_specifier (content f)) = true
    ∧ string_of_list_byte (boot_system_identifier (content f)) = "CD001"
    ∧ normalize_specifier
        (string_of_list_byte (boot_system_specifier (content f)))
      = "EL TORITO SPECIFICATION"
    ∧ readable (boot_catalog_sector (content f)) (content f)
    ∧ is_ascii (manufacturer_id (content f)) = true
    ∧ header_id (content f) = 1
    ∧ key_byte_1 (content f) = 0x55
    ∧ key_byte_2 (content f) = 0xaa
    ∧ boot_indicator (content f) = 0x88
    ∧ (media_type (content f) = 4 →
       readable (load_rba (content f)) (content f))
    ∧ (load_rba (content f) * 2048
       + 512 * resolved_sector_count (content f)
       ≤ Z.of_nat (length (content f))
       ∨ resolved_sector_count (content f) = 0).
Proof.
  rewrite extract_result.
  pose proof (resolved_sector_count_nonneg (content f)) as Hcount.
  pose proof (le_uint_nonneg (slice 40 44 (catalog_of (content f)))) as Hstart.
  fold (load_rba (content f)) in Hstart.
  pose proof (bytes_at_complete _ _ (content f) Hstart Hcount) as Hlen.
  split.
  - intros [bytes Hx].
    apply extract_outcome_inv in Hx as (start & count & Hd & -> & Hl).
    apply decode_outcome_ok in Hd as (Hb & Hv & Hi & Hc & -> & ->).
    apply boot_record_outcome_ok in Hb. apply validation_entry_outcome_ok in Hv.
    apply Hlen in Hl. tauto.
  - intros (H1 & H2 & H3 & H4 & H5 & H6 & H7 & H8 & H9 & H10 & H11 & H12 & H13).
    assert (decode_outcome (content f)
            = inr (load_rba (content f), resolved_sector_count (content f)))
      as Hd.
    { apply decode_outcome_ok.
      rewrite boot_record_outcome_ok, validation_entry_outcome_ok. tauto. }
    exists (bytes_at (load_rba (content f))
              (resolved_sector_count (content f)) (content f)).
    unfold extract_outcome. rewrite Hd, result_bind_inr. cbv beta iota.
    apply Hlen in H13. by rewrite decide_True.
Qed.

Lemma extract_succeeds_iff_witness :
  ∃ bytes,
    (extract (Some (Image.open Image.one_sector)) (Some Image.silent)).1
    = inr bytes.
Proof.
  apply (extract_succeeds_iff (Image.open Image.one_sector) Image.silent).
  split; [vm_compute; reflexivity|].
  split; [vm_compute; reflexivity|].
  split; [vm_compute; reflexivity|].
  split; [vm_compute; reflexivity|].
  split; [vm_compute; reflexivity|].
  split; [vm_compute; reflexivity|].
  split; [vm_compute; reflexivity|].
  split; [vm_compute; reflexivity|].
  split; [vm_compute; reflexivity|].
  split; [vm_compute; reflexivity|].
  split; [vm_compute; reflexivity|].
  split; [intros _; vm_compute; reflexivity|].
  left. apply Z.leb_le. vm_compute. reflexivity.
Defined.

Lemma extract_outcome_stages (img : list byte) :
  extract_outcome img =
  match boot_record_outcome img with
  | inl e => inl e
  | inr _ =>
      match validation_entry_outcome img with
      | inl e => inl e
      | inr _ =>
          match initial_entry_outcome img with
          | inl e => inl e
          | inr _ =>
              match candidate_outcome img with
              | inl e => inl e
              | inr _ =>
                  if decide (Z.of_nat
                               (length (bytes_at (load_rba img)
                                          (resolved_sector_count img) img))
                             = 512 * resolved_sector_count img)
                  then inr (bytes_at (load_rba img)
                              (resolved_sector_count img) img)
                  else inl TruncatedImageError
              end
          end
      end
  end.
Proof.
  unfold extract_outcome, decode_outcome, catalog_outcome.
  destruct (boot_record_outcome img) as [?|[]]; [by rewrite !result_bind_inl|].
  rewrite result_bind_inr.
  destruct (validation_entry_outcome img) as [?|[]];
    [by rewrite !result_bind_inl|].
  rewrite result_bind_inr.
  destruct (initial_entry_outcome img) as [?|[]];
    [by rewrite !result_bind_inl|].
  rewrite result_bind_inr.
  destruct (candidate_outcome img) as [?|candidate] eqn:Hc;
    [by rewrite !result_bind_inl|].
  rewrite !result_bind_inr. cbv beta iota.
  by rewrite (resolved_sector_count_candidate _ _ Hc).
Qed.

(** X8. The error that [extract] raises names the first check that fails: a
    "not a bootable cd-image" error means that sector 17 was read and
    decoded; an "invalid validation entry" error means that the boot record
    passed and the catalog sector was read with an ASCII manufacturer; and
    a "boot indicator" error means that the boot record and the validation
    entry both passed. *)
Theorem error_names_first_failed_check {H : Type} `{HL : HandlerLaws H}
    (f : stream) (h : H) :
  ((extract (Some f) (Some h)).1 = inl NotBootableError ↔
   readable 17 (content f)
   ∧ is_ascii (boot_system_identifier (content f)) = true
   ∧ is_ascii (boot_system_specifier (content f)) = true
   ∧ ¬ (string_of_list_byte (boot_system_identifier (content f)) = "CD001"
        ∧ normalize_specifier
            (string_of_list_byte (boot_system_specifier (content f)))
          = "EL TORITO SPECIFICATION"))
  ∧ ((extract (Some f) (Some h)).1 = inl InvalidValidationEntryError ↔
     boot_record_outcome (content f) = inr tt
     ∧ readable (boot_catalog_sector (content f)) (content f)
     ∧ is_ascii (manufacturer_id (content f)) = true
     ∧ ¬ (header_id (content f) = 1 ∧ key_byte_1 (content f) = 0x55
          ∧ key_byte_2 (content f) = 0xaa))
  ∧ ((extract (Some f) (Some h)).1 = inl NotBootableEntryError ↔
     boot_record_outcome (content f) = inr tt
     ∧ validation_entry_outcome (content f) = inr tt
     ∧ boot_indicator (content f) ≠ 0x88).
Proof.
  rewrite extract_result, extract_outcome_stages.
  generalize (resolved_sector_count (content f)). intros count.
  generalize (content f). intros img.
  pose proof (boot_record_outcome_ok img) as Hbok.
  pose proof (validation_entry_outcome_ok img) as Hvok.
  assert (∀ e, candidate_outcome img = inl e → e = TruncatedImageError)
    as Hcand.
  { intros e. unfold candidate_outcome. repeat case_decide; congruence. }
  destruct (boot_record_outcome img) as [eb|[]] eqn:Hb.
  { assert (¬ (inl eb = inr tt :> exn + unit)) as Hne by done.
    revert Hb. unfold boot_record_outcome.
    destruct (decide (readable 17 img));
      [|intros [= <-]; split; [|split]; split; (done || tauto)].
    destruct (is_ascii (boot_system_identifier img));
      [|intros [= <-]; split; [|split]; split;
        (done || tauto || by intros (_ & ? & _))].
    destruct (is_ascii (boot_system_specifier img));
      [|intros [= <-]; split; [|split]; split;
        (done || tauto || by intros (_ & _ & ? & _))].
    case_decide; [done|].
    intros [= <-]; split; [|split]; split; (done || tauto). }
  assert (¬ ¬ (string_of_list_byte (boot_system_identifier img) = "CD001"
               ∧ normalize_specifier
                   (string_of_list_byte (boot_system_specifier img))
                 = "EL TORITO SPECIFICATION")) as Hbok'
    by (destruct Hbok as [Hbok _]; specialize (Hbok eq_refl); tauto).
  destruct (validation_entry_outcome img) as [ev|[]] eqn:Hv.
  { revert Hv. unfold validation_entry_outcome.
    destruct (decide (readable (boot_catalog_sector img) img));
      [|intros [= <-]; split; [|split]; split; (done || tauto)].
    destruct (is_ascii (manufacturer_id img));
      [|intros [= <-]; split; [|split]; split;
        first [done | tauto | by intros (_ & ? & _)
              | by intros (_ & _ & ? & _)]].
    case_decide; [done|].
    intros [= <-]; split; [|split]; split; (done || tauto). }
  assert (¬ ¬ (header_id img = 1 ∧ key_byte_1 img = 85
               ∧ key_byte_2 img = 170)) as Hvok'
    by (destruct Hvok as [Hvok _]; specialize (Hvok eq_refl); tauto).
  unfold initial_entry_outcome.
  destruct (decide (boot_indicator img = 136)) as [Hi|Hi].
  - destruct (candidate_outcome img) as [ec|?] eqn:Hc.
    + rewrite (Hcand ec eq_refl).
      split; [|split]; split; (done || tauto).
    + case_decide; (split; [|split]; split; (done || tauto)).
  - split; [|split]; split; (done || tauto).
Qed.

Lemma error_names_first_failed_check_witness :
  (extract (Some (Image.open Image.cd002)) (Some Image.silent)).1
  = inl NotBootableError
  ∧ readable 17 Image.cd002.
Proof.
  destruct (error_names_first_failed_check (Image.open Image.cd002)
              Image.silent) as ((Hto & Hfrom) & _).
  assert ((extract (Some (Image.open Image.cd002)) (Some Image.silent)).1
          = inl NotBootableError) as Hx by (vm_compute; reflexivity).
  split; [exact Hx|]. exact (proj1 (Hto Hx)).
Defined.

(** ** Data after what is read *)

Lemma bytes_at_app (number count : Z) (img tail : list byte) :
  Z.of_nat (length (bytes_at number count img)) = 512 * count →
  bytes_at number count (img ++ tail) = bytes_at number count img.
Proof.
  unfold bytes_at. rewrite length_take, length_drop. intros Hlen.
  destruct (decide (Z.to_nat (512 * count) = 0%nat)) as [->|Hpos];
    [by rewrite !take_0|].
  rewrite drop_app_le by lia.
  rewrite take_app_le; [done|]. rewrite length_drop. lia.
Qed.

Lemma sector_at_app (number : Z) (img tail : list byte) :
  readable number img →
  sector_at number (img ++ tail) = sector_at number img.
Proof.
  unfold readable, sector_at. intros Hr. apply bytes_at_app. lia.
Qed.

Lemma readable_app (number : Z) (img tail : list byte) :
  readable number img → readable number (img ++ tail).
Proof. intros Hr. unfold readable. by rewrite sector_at_app. Qed.

Lemma boot_record_outcome_app (img tail : list byte) :
  readable 17 img →
  boot_record_outcome (img ++ tail) = boot_record_outcome img.
Proof.
  intros Hr. unfold boot_record_outcome, boot_system_identifier,
    boot_system_specifier.
  rewrite (sector_at_app 17 img tail Hr).
  rewrite (decide_True (P := readable 17 (img ++ tail)))
    by by apply readable_app.
  by rewrite (decide_True (P := readable 17 img)).
Qed.

Lemma catalog_of_app (img tail : list byte) :
  readable 17 img → readable (boot_catalog_sector img) img →
  boot_catalog_sector (img ++ tail) = boot_catalog_sector img
  ∧ catalog_of (img ++ tail) = catalog_of img.
Proof.
  intros Hr Hc.
  assert (boot_catalog_sector (img ++ tail) = boot_catalog_sector img) as Heq
    by (unfold boot_catalog_sector; by rewrite sector_at_app).
  split; [done|]. unfold catalog_of. rewrite Heq. by apply sector_at_app.
Qed.

Lemma validation_entry_outcome_app (img tail : list byte) :
  readable 17 img → readable (boot_catalog_sector img) img →
  validation_entry_outcome (img ++ tail) = validation_entry_outcome img.
Proof.
  intros Hr Hc. destruct (catalog_of_app img tail Hr Hc) as [Hs Hcat].
  unfold validation_entry_outcome, manufacturer_id, header_id, key_byte_1,
    key_byte_2.
  rewrite Hcat, Hs.
  rewrite (decide_True (P := readable (boot_catalog_sector img) (img ++ tail)))
    by by apply readable_app.
  by rewrite (decide_True (P := readable (boot_catalog_sector img) img)).
Qed.

Lemma candidate_outcome_app (img tail : list byte) :
  readable 17 img → readable (boot_catalog_sector img) img →
  candidate_outcome img ≠ inl TruncatedImageError →
  candidate_outcome (img ++ tail) = candidate_outcome img
  ∧ resolved_sector_count (img ++ tail) = resolved_sector_count img.
Proof.
  intros Hr Hc. destruct (catalog_of_app img tail Hr Hc) as [_ Hcat].
  assert (load_rba (img ++ tail) = load_rba img) as Hload
    by (unfold load_rba; by rewrite Hcat).
  assert (media_type (img ++ tail) = media_type img) as Hmedia
    by (unfold media_type; by rewrite Hcat).
  assert (sector_count (img ++ tail) = sector_count img) as Hcount
    by (unfold sector_count; by rewrite Hcat).
  unfold candidate_outcome, resolved_sector_count, first_sector_lba,
    sector_count_lba.
  rewrite Hload, Hmedia, Hcount. cbv zeta.
  destruct (decide (media_type img = 1)); [done|].
  destruct (decide (media_type img = 2)); [done|].
  destruct (decide (media_type img = 3)); [done|].
  destruct (decide (media_type img = 4)); [|done].
  destruct (decide (readable (load_rba img) img)) as [Hm|?]; [|done].
  intros _.
  rewrite (decide_True (P := readable _ (img ++ tail)))
    by by apply readable_app.
  by rewrite (sector_at_app _ img tail Hm).
Qed.

Lemma extract_outcome_app (img tail : list byte) :
  extract_outcome img ≠ inl TruncatedImageError →
  extract_outcome (img ++ tail) = extract_outcome img.
Proof.
  rewrite !extract_outcome_stages.
  destruct (decide (readable 17 img)) as [Hr|Hr];
    [|unfold boot_record_outcome at 1; by rewrite decide_False].
  rewrite (boot_record_outcome_app img tail Hr).
  destruct (boot_record_outcome img) as [?|[]]; [done|].
  destruct (decide (readable (boot_catalog_sector img) img)) as [Hc|Hc];
    [|unfold validation_entry_outcome at 1; by rewrite decide_False].
  rewrite (validation_entry_outcome_app img tail Hr Hc).
  destruct (validation_entry_outcome img) as [?|[]]; [done|].
  destruct (catalog_of_app img tail Hr Hc) as [_ Hcat].
  assert (initial_entry_outcome (img ++ tail) = initial_entry_outcome img)
    as -> by (unfold initial_entry_outcome, boot_indicator; by rewrite Hcat).
  destruct (initial_entry_outcome img) as [?|[]]; [done|].
  destruct (decide (candidate_outcome img = inl TruncatedImageError))
    as [->|Hcand]; [done|].
  destruct (candidate_outcome_app img tail Hr Hc Hcand) as [-> ->].
  destruct (candidate_outcome img) as [?|?]; [done|].
  assert (load_rba (img ++ tail) = load_rba img) as ->
    by (unfold load_rba; by rewrite Hcat).
  case_decide as Hlen; [|done]. intros _.
  rewrite (bytes_at_app _ _ img tail Hlen). by rewrite decide_True.
Qed.

(** X9. An image that [extract] accepts, or rejects for any reason other than
    a short read, gives the same result with any data added after its end:
    nothing that lies behind the sectors read is looked at. *)
Theorem extract_ignores_trailing_data {H : Type} `{HL : HandlerLaws H}
    (f g : stream) (h : H) (tail : list byte) :
  content g = content f ++ tail →
  (extract (Some f) (Some h)).1 ≠ inl TruncatedImageError →
  (extract (Some g) (Some h)).1 = (extract (Some f) (Some h)).1.
Proof.
  rewrite !extract_result. intros ->. apply extract_outcome_app.
Qed.

Lemma extract_ignores_trailing_data_witness :
  (extract (Some (Image.open (Image.one_sector ++ [x41; x42])))
     (Some Image.silent)).1
  = (extract (Some (Image.open Image.one_sector)) (Some Image.silent)).1.
Proof.
  apply (extract_ignores_trailing_data (Image.open Image.one_sector)
           (Image.open (Image.one_sector ++ [x41; x42])) Image.silent
           [x41; x42]).
  - reflexivity.
  - vm_compute. discriminate.
Defined.

(** ** [main] *)

Lemma extract_outcome_failure_kinds (img : list byte) (e : exn) :
  extract_outcome img = inl e →
  e = TruncatedImageError ∨ e = NotBootableError
  ∨ e = InvalidValidationEntryError ∨ e = NotBootableEntryError
  ∨ e = UnicodeDecodeError.
Proof.
  rewrite extract_outcome_stages.
  unfold boot_record_outcome, validation_entry_outcome,
    initial_entry_outcome, candidate_outcome.
  generalize (resolved_sector_count img). intros count.
  destruct (decide (readable 17 img)); [|intros [= <-]; tauto].
  destruct (is_ascii (boot_system_identifier img)); [|intros [= <-]; tauto].
  destruct (is_ascii (boot_system_specifier img)); [|intros [= <-]; tauto].
  destruct (decide (_ ∧ _)); [|intros [= <-]; tauto].
  destruct (decide (readable (boot_catalog_sector img) img));
    [|intros [= <-]; tauto].
  destruct (is_ascii (manufacturer_id img)); [|intros [= <-]; tauto].
  destruct (decide (_ ∧ _ ∧ _)); [|intros [= <-]; tauto].
  destruct (decide (boot_indicator img = 136)); [|intros [= <-]; tauto].
  destruct (decide (media_type img = 1));
    [case_decide; [done|intros [= <-]; tauto]|].
  destruct (decide (media_type img = 2));
    [case_decide; [done|intros [= <-]; tauto]|].
  destruct (decide (media_type img = 3));
    [case_decide; [done|intros [= <-]; tauto]|].
  destruct (decide (media_type img = 4)).
  - destruct (decide (readable (load_rba img) img)); [|intros [= <-]; tauto].
    case_decide; [done|intros [= <-]; tauto].
  - case_decide; [done|intros [= <-]; tauto].
Qed.

(** [main] on an input file that can be read and an output path that is
    free. *)
Lemma main_run (input output : string) (w : world) (img : list byte) :
  files w !! input = Some (File img) → files w !! output = None →
  main input output w
  = let out := stdout w
               ++ (report_line <$> take (reported_count img) (reports img)) in
    match extract_outcome img with
    | inr b => write_output output b out w
    | inl (ElToritoError message) =>
        (Returned,
         {| files := files w;
            create := create w;
            stdout :=
              print message
                (print "unable to extract image, eltorito format error"
                   out) |})
    | inl e =>
        (Raised e, {| files := files w; create := create w; stdout := out |})
    end.
Proof.
  intros Hin Hout. unfold main. rewrite Hin, Hout.
  destruct (extract_reports_run {| content := img; position := 0 |}
              (new_handler w)) as (f' & -> & _).
  cbn [content].
  destruct (DetailHandler_report_all
              (take (reported_count img) (reports img)) (new_handler w))
    as [Hstdout _].
  assert (handler_stdout
            (Some (report_all (take (reported_count img) (reports img))
                     (new_handler w))) w
          = stdout w
            ++ (report_line <$> take (reported_count img) (reports img)))
    as ->.
  { unfold handler_stdout.
    destruct (report_all _ (new_handler w)) as [out attrs'].
    cbn [_stdout new_handler fmap option_fmap option_map] in Hstdout.
    by rewrite Hstdout. }
  reflexivity.
Qed.

(** X11. [main] never changes or removes a file that exists, and the only path
    at which it can create one is its output path. *)
Theorem main_keeps_existing_files (input output path : string) (w : world) :
  path ≠ output ∨ is_Some (files w !! path) →
  files (main input output w).2 !! path = files w !! path.
Proof.
  intros Hpath. unfold main.
  destruct (files w !! input) as [source|]; [|done].
  destruct (files w !! output) as [old|] eqn:Hout; [done|].
  assert (path ≠ output) as Hne.
  { destruct Hpath as [?|[? Hsome]]; [done|]. congruence. }
  destruct source as [img|]; [|done].
  destruct (extract _ _) as [[e|b] [f' handler]]; cbn [snd files].
  - by destruct e.
  - unfold write_output.
    destruct (create w output); cbn [snd files];
      by rewrite ?lookup_insert_ne.
Qed.

Lemma main_keeps_existing_files_witness :
  files (main "cd.iso" "cd.iso"
           {| files := {[ "cd.iso" := File Image.one_sector ]};
              create := λ _, Created;
              stdout := [] |}).2
    !! "cd.iso"
  = Some (File Image.one_sector).
Proof.
  rewrite (main_keeps_existing_files "cd.iso" "cd.iso" "cd.iso"
             {| files := {[ "cd.iso" := File Image.one_sector ]};
                create := λ _, Created;
                stdout := [] |}).
  - cbn [files]. by rewrite lookup_singleton_eq.
  - right. cbn [files]. rewrite lookup_singleton_eq. by eexists.
Defined.


(** X13. After [main], with an input that can be read and a free output path,
    the output path holds a file exactly when [extract] returned a buffer
    and the file could be created. The file is that buffer, the
    [512 * resolved_sector_count] bytes of the input from byte offset
    [load_rba * 2048], or the part of it that was written before the write
    failed. When [extract] fails or the output cannot be opened, no output
    file is created. *)
Theorem main_writes_the_extracted_range (input output : string) (w : world)
    (img : list byte) :
  files w !! input = Some (File img) → files w !! output = None →
  files (main input output w).2 !! output
  = match (extract (Some {| content := img; position := 0 |})
             (Some (new_handler w))).1, create w output with
    | inr _, Created =>
        Some (File (bytes_at (load_rba img) (resolved_sector_count img) img))
    | inr _, Cut n =>
        Some (File (take n (bytes_at (load_rba img)
                              (resolved_sector_count img) img)))
    | _, _ => None
    end.
Proof.
  intros Hin Hout. rewrite (main_run _ _ _ _ Hin Hout), extract_result.
  cbv zeta. cbn [content].
  rewrite extract_outcome_stages.
  destruct (boot_record_outcome img) as [[]|[]]; try done.
  destruct (validation_entry_outcome img) as [[]|[]]; try done.
  destruct (initial_entry_outcome img) as [[]|[]]; try done.
  destruct (candidate_outcome img) as [[]|?]; try done.
  case_decide; [|done]. unfold write_output.
  destruct (create w output); cbn [snd files];
    by rewrite ?lookup_insert_eq.
Qed.

Lemma main_writes_the_extracted_range_witness :
  files (main "cd.iso" "boot.img"
           {| files := {[ "cd.iso" := File Image.one_sector ]};
              create := λ _, Created;
              stdout := [] |}).2
    !! "boot.img"
  = Some (File (replicate 512 x01)).
Proof.
  rewrite (main_writes_the_extracted_range "cd.iso" "boot.img"
             {| files := {[ "cd.iso" := File Image.one_sector ]};
                create := λ _, Created;
                stdout := [] |}
             Image.one_sector).
  - vm_compute. reflexivity.
  - cbn [files]. by rewrite lookup_singleton_eq.
  - cbn [files]. by rewrite lookup_singleton_ne.
Defined.

(** X14. When [extract] fails with an [ElToritoError], [main] catches it: it
    prints the format-error line and the error's message after the lines
    that the handler printed, writes no file, and returns normally, so the
    process ends with status 0. *)
Theorem main_format_error_returns_normally (input output : string)
    (w : world) (img : list byte) (message : string) :
  files w !! input = Some (File img) → files w !! output = None →
  (extract (Some {| content := img; position := 0 |})
     (Some (new_handler w))).1 = inl (ElToritoError message) →
  ∃ n,
    (n ≤ 12)%nat
    ∧ main input output w
      = (Returned,
         {| files := files w;
            create := create w;
            stdout := stdout w
                      ++ (report_line <$> take n (reports img))
                      ++ ["unable to extract image, eltorito format error";
                          newline; message; newline] |}).
Proof.
  intros Hin Hout. rewrite extract_result. cbn [content]. intros Herr.
  rewrite (main_run _ _ _ _ Hin Hout). cbv zeta.
  rewrite Herr. exists (reported_count img).
  split; [by destruct (reported_count_cases img) as (Hle & _)|].
  unfold print. by rewrite <- !app_assoc.
Qed.

Lemma main_format_error_returns_normally_witness :
  (main "cd.iso" "boot.img"
     {| files := {[ "cd.iso" := File Image.cd002 ]};
        create := λ _, Created;
        stdout := [] |}).1
  = Returned.
Proof.
  destruct (main_format_error_returns_normally "cd.iso" "boot.img"
              {| files := {[ "cd.iso" := File Image.cd002 ]};
                 create := λ _, Created;
                 stdout := [] |}
              Image.cd002 "this is not a bootable cd-image")
    as (n & _ & ->).
  - cbn [files]. by rewrite lookup_singleton_eq.
  - cbn [files]. by rewrite lookup_singleton_ne.
  - vm_compute. reflexivity.
  - reflexivity.
Defined.

(** X15. What [main] does not catch, on a free output path. An input that
    exists but cannot be opened ends the run with [open]'s [OSError],
    before anything is printed. An exception of [extract] that is not an
    [ElToritoError], such as the [UnicodeDecodeError] of a field that is
    not ASCII, ends the run with that exception after the lines printed so
    far, and the output is never opened. And when [extract] has returned
    but the output cannot be created or written, the run ends with that
    [OSError], without the success message. In none of these cases is an
    existing file changed. *)
Theorem main_lets_other_exceptions_escape (input output : string)
    (w : world) :
  files w !! output = None →
  (files w !! input = Some Unreadable →
   main input output w = (Raised OSError, w))
  ∧ ∀ img,
      files w !! input = Some (File img) →
      (∀ e,
         (extract (Some {| content := img; position := 0 |})
            (Some (new_handler w))).1 = inl e →
         (∀ message, e ≠ ElToritoError message) →
         ∃ n,
           (n ≤ 12)%nat
           ∧ main input output w
             = (Raised e,
                {| files := files w;
                   create := create w;
                   stdout := stdout w
                             ++ (report_line <$> take n (reports img)) |}))
      ∧ (∀ bytes,
           (extract (Some {| content := img; position := 0 |})
              (Some (new_handler w))).1 = inr bytes →
           create w output ≠ Created →
           (main input output w).1 = Raised OSError
           ∧ stdout (main input output w).2
             = stdout w ++ (report_line <$> reports img)
           ∧ ∀ path, path ≠ output →
               files (main input output w).2 !! path = files w !! path).
Proof.
  intros Hout. split.
  { intros Hin. unfold main. by rewrite Hin, Hout. }
  intros img Hin. rewrite extract_result. cbn [content].
  rewrite (main_run _ _ _ _ Hin Hout). cbv zeta.
  destruct (reported_count_cases img) as (Hle & _ & _ & _ & H12).
  split.
  - intros e -> He. exists (reported_count img). split; [exact Hle|].
    destruct e; try done. by destruct (He message).
  - intros bytes Hok Hcreate. rewrite Hok, (H12 bytes Hok).
    unfold write_output.
    destruct (create w output); [done|..]; cbn [fst snd files stdout];
      (split; [done|]); (split; [done|]); intros path Hne;
      by rewrite ?lookup_insert_ne.
Qed.

Lemma main_lets_other_exceptions_escape_witness :
  (main "cd.iso" "boot.img"
     {| files := {[ "cd.iso" := File Image.non_ascii_identifier ]};
        create := λ _, Created;
        stdout := [] |}).1
  = Raised UnicodeDecodeError.
Proof.
  destruct (main_lets_other_exceptions_escape "cd.iso" "boot.img"
              {| files := {[ "cd.iso" := File Image.non_ascii_identifier ]};
                 create := λ _, Created;
                 stdout := [] |}) as [_ Hfile].
  { cbn [files]. by rewrite lookup_singleton_ne. }
  destruct (Hfile Image.non_ascii_identifier) as [Hraise _].
  { cbn [files]. by rewrite lookup_singleton_eq. }
  destruct (Hraise UnicodeDecodeError) as (n & _ & ->).
  - vm_compute. reflexivity.
  - done.
  - reflexivity.
Defined.

(** X16. When [extract] succeeds and the output file can be created and
    written, [main] writes the extracted bytes to it, prints the twelve
    report lines in order, then the success message, and returns
    normally. *)
Theorem main_prints_on_success (input output : string) (w : world)
    (img bytes : list byte) :
  files w !! input = Some (File img) → files w !! output = None →
  create w output = Created →
  (extract (Some {| content := img; position := 0 |})
     (Some (new_handler w))).1 = inr bytes →
  main input output w
  = (Returned,
     {| files := <[output := File bytes]> (files w);
        create := create w;
        stdout := stdout w ++ (report_line <$> reports img)
                  ++ ["image written successfully"; newline] |}).
Proof.
  intros Hin Hout Hcreate. rewrite extract_result. cbn [content]. intros Hok.
  rewrite (main_run _ _ _ _ Hin Hout). cbv zeta.
  rewrite Hok. unfold write_output. rewrite Hcreate.
  destruct (reported_count_cases img) as (_ & _ & _ & _ & H12).
  rewrite (H12 bytes Hok). unfold print. rewrite <- app_assoc.
  reflexivity.
Qed.

Lemma main_prints_on_success_witness :
  length (stdout (main "cd.iso" "boot.img"
                    {| files := {[ "cd.iso" := File Image.one_sector ]};
                       create := λ _, Created;
                       stdout := [] |}).2)
  = 14%nat.
Proof.
  rewrite (main_prints_on_success "cd.iso" "boot.img"
             {| files := {[ "cd.iso" := File Image.one_sector ]};
                create := λ _, Created;
                stdout := [] |}
             Image.one_sector (replicate 512 x01)).
  - reflexivity.
  - cbn [files]. by rewrite lookup_singleton_eq.
  - cbn [files]. by rewrite lookup_singleton_ne.
  - reflexivity.
  - vm_compute. reflexivity.
Defined.

(** ** Which exceptions there are *)

(** X10. For a handler that returns from [get] what [set] stored, which
    [DetailHandler] does for the keys of [extract], an exception of
    [extract] is an [ElToritoError] with one of the source's five messages
    or a [UnicodeDecodeError]; a handler that does not keep what it is told
    can make [get] raise something else. The "invalid arguments" error is
    raised exactly when the source or the handler is missing, before
    anything is read or reported. *)
Theorem extract_raises {H : Type} `{HL : HandlerLaws H}
    (input : option stream) (handler : option H) (e : exn) :
  (extract input handler).1 = inl e →
  (in_taxonomy e ∨ e = UnicodeDecodeError)
  ∧ (e = InvalidArgumentError ↔ input = None ∨ handler = None)
  ∧ (e = InvalidArgumentError →
     (extract input handler).2 = (input, handler)).
Proof.
  destruct input as [f|], handler as [h|];
    [|intros [= <-]; unfold in_taxonomy; split; [tauto|]; split;
      [split; eauto|done]..].
  rewrite extract_result. intros He.
  apply extract_outcome_failure_kinds in He.
  unfold in_taxonomy.
  destruct He as [-> | [-> | [-> | [-> | ->]]]];
    (split; [tauto|]); (split; [|done]); (split; [done|]);
    by intros [?|?].
Qed.

Lemma extract_raises_witness :
  (extract None (Some Image.silent)).1 = inl InvalidArgumentError
  ∧ (extract None (Some Image.silent)).2 = (None, Some Image.silent).
Proof.
  assert ((extract None (Some Image.silent)).1 = inl InvalidArgumentError)
    as He by reflexivity.
  split; [exact He|].
  destruct (extract_raises None (Some Image.silent) _ He) as (_ & _ & Hstate).
  by apply Hstate.
Defined.

(** ** The specifier check (lines 60-67) *)

Lemma append_nil_right (s : string) : s +:+ EmptyString = s.
Proof.
  induction s as [|c s IH]; [done|].
  change (String c s +:+ EmptyString) with (String c (s +:+ EmptyString)).
  by rewrite IH.
Qed.

Lemma append_associative (s1 s2 s3 : string) :
  (s1 +:+ s2) +:+ s3 = s1 +:+ (s2 +:+ s3).
Proof.
  induction s1 as [|c s1 IH]; [done|].
  change (String c ((s1 +:+ s2) +:+ s3) = String c (s1 +:+ (s2 +:+ s3))).
  by rewrite IH.
Qed.

Lemma rev_app_append (s1 s2 : string) :
  String.rev_app s1 s2 = String.rev s1 +:+ s2.
Proof.
  unfold String.rev. revert s2.
  induction s1 as [|c s1 IH]; intros s2; [done|].
  cbn [String.rev_app]. rewrite (IH (String c s2)), (IH (String c "")).
  by rewrite append_associative.
Qed.

Lemma rev_append (s1 s2 : string) :
  String.rev (s1 +:+ s2) = String.rev s2 +:+ String.rev s1.
Proof.
  induction s1 as [|c s1 IH]; [by rewrite append_nil_right|].
  change (String c s1 +:+ s2) with (String c (s1 +:+ s2)).
  unfold String.rev at 1. cbn [String.rev_app].
  rewrite (rev_app_append (s1 +:+ s2)), IH, append_associative.
  f_equal. unfold String.rev at 2. cbn [String.rev_app].
  by rewrite (rev_app_append s1).
Qed.

Lemma rev_involutive (s : string) : String.rev (String.rev s) = s.
Proof.
  induction s as [|c s IH]; [done|].
  unfold String.rev at 2. cbn [String.rev_app].
  rewrite rev_app_append, rev_append, IH. reflexivity.
Qed.

Lemma keep_upper_and_space_append (s1 s2 : string) :
  keep_upper_and_space (s1 +:+ s2)
  = keep_upper_and_space s1 +:+ keep_upper_and_space s2.
Proof.
  induction s1 as [|c s1 IH]; [done|].
  change (String c s1 +:+ s2) with (String c (s1 +:+ s2)).
  cbn [keep_upper_and_space]. rewrite IH.
  by destruct (is_upper_or_space c).
Qed.

Lemma keep_upper_and_space_rev (s : string) :
  keep_upper_and_space (String.rev s) = String.rev (keep_upper_and_space s).
Proof.
  induction s as [|c s IH]; [done|].
  change (String c s) with (String c EmptyString +:+ s).
  rewrite rev_append, !keep_upper_and_space_append, rev_append, IH.
  f_equal. cbn [keep_upper_and_space String.rev String.rev_app].
  unfold String.rev. cbn [String.rev_app keep_upper_and_space].
  by destruct (is_upper_or_space c).
Qed.

Lemma lstrip_append_blank (s1 s2 : string) :
  lstrip s1 = EmptyString → lstrip (s1 +:+ s2) = lstrip s2.
Proof.
  induction s1 as [|c s1 IH]; [done|].
  change (String c s1 +:+ s2) with (String c (s1 +:+ s2)).
  cbn [lstrip]. destruct (is_space c); [exact IH|done].
Qed.

Lemma lstrip_append (s1 s2 : string) :
  lstrip s1 ≠ EmptyString → lstrip (s1 +:+ s2) = lstrip s1 +:+ s2.
Proof.
  induction s1 as [|c s1 IH]; [done|].
  change (String c s1 +:+ s2) with (String c (s1 +:+ s2)).
  cbn [lstrip]. destruct (is_space c); [exact IH|done].
Qed.

Lemma lstrip_rev_blank (s : string) :
  lstrip s = EmptyString → lstrip (String.rev s) = EmptyString.
Proof.
  induction s as [|c s IH]; [done|].
  cbn [lstrip]. destruct (is_space c) eqn:Hc; [|done]. intros Hs.
  unfold String.rev. cbn [String.rev_app]. rewrite rev_app_append.
  rewrite lstrip_append_blank by auto. cbn [lstrip]. by rewrite Hc.
Qed.

Lemma keep_upper_and_space_lstrip (s : string) :
  ∃ blank,
    lstrip blank = EmptyString
    ∧ keep_upper_and_space s
      = blank +:+ keep_upper_and_space (lstrip s).
Proof.
  induction s as [|c s (blank & Hblank & IH)]; [by exists EmptyString|].
  cbn [lstrip]. destruct (is_space c) eqn:Hc; [|by exists EmptyString].
  cbn [keep_upper_and_space]. destruct (is_upper_or_space c).
  - exists (String c blank). split; [cbn [lstrip]; by rewrite Hc|].
    by rewrite IH.
  - by exists blank.
Qed.

Lemma rstrip_append_blank (s blank : string) :
  lstrip blank = EmptyString → rstrip (s +:+ blank) = rstrip s.
Proof.
  intros Hblank. unfold rstrip. rewrite rev_append.
  by rewrite lstrip_append_blank by by apply lstrip_rev_blank.
Qed.

Lemma keep_upper_and_space_rstrip (s : string) :
  ∃ blank,
    lstrip blank = EmptyString
    ∧ keep_upper_and_space s
      = keep_upper_and_space (rstrip s) +:+ blank.
Proof.
  destruct (keep_upper_and_space_lstrip (String.rev s))
    as (blank & Hblank & Hkeep).
  exists (String.rev blank). split; [by apply lstrip_rev_blank|].
  unfold rstrip. rewrite keep_upper_and_space_rev, <- rev_append, <- Hkeep.
  by rewrite keep_upper_and_space_rev, rev_involutive.
Qed.

Lemma strip_keep_upper_and_space (s : string) :
  strip (keep_upper_and_space (strip s)) = strip (keep_upper_and_space s).
Proof.
  unfold strip.
  destruct (keep_upper_and_space_lstrip s) as (front & Hfront & ->).
  rewrite (lstrip_append_blank front) by done.
  destruct (keep_upper_and_space_rstrip (lstrip s)) as (back & Hback & ->).
  destruct (decide (lstrip (keep_upper_and_space (rstrip (lstrip s)))
                    = EmptyString)) as [Hblank|Hword].
  - rewrite (lstrip_append_blank _ back Hblank), Hblank, Hback. reflexivity.
  - rewrite (lstrip_append _ back Hword).
    by rewrite rstrip_append_blank.
Qed.

(** X17. The specifier check strips twice, before and after the filter of line
    63; the first strip changes nothing. And since the filter drops every
    character that is not an upper-case letter or a space, the check
    cannot see such a character: a specifier with any of them put in
    anywhere compares as the specifier without. *)
Theorem specifier_check_ignores_other_characters (s1 s2 : string)
    (c : ascii) :
  normalize_specifier (s1 +:+ s2)
  = strip (keep_upper_and_space (s1 +:+ s2))
  ∧ (is_upper_or_space c = false →
     normalize_specifier (s1 +:+ String c s2)
     = normalize_specifier (s1 +:+ s2)).
Proof.
  unfold normalize_specifier. rewrite !strip_keep_upper_and_space.
  split; [done|]. intros Hc.
  rewrite !keep_upper_and_space_append. cbn [keep_upper_and_space].
  by rewrite Hc.
Qed.

Lemma specifier_check_ignores_other_characters_witness :
  normalize_specifier ("EL TORITO" +:+ String "1" " SPECIFICATION")
  = "EL TORITO SPECIFICATION".
Proof.
  destruct (specifier_check_ignores_other_characters "EL TORITO"
              " SPECIFICATION" "1") as [_ ->]; [reflexivity|].
  vm_compute. reflexivity.
Defined.
